(** * Blotter: import pipeline, record store requests, search and sign-out

    A shallow embedding of the logic of the blotter web client
    ([Settings.tsx], [EntryDetail], the two [BlotterList] variants and
    [AuthProvider]) together with the properties its specification
    states about it.

    Conventions of the model:
    - JavaScript strings are ASCII strings; [toLowerCase] and [trim]
      act on the ASCII letters and the ASCII white space only.
    - JavaScript numbers that the code uses as day counts, page
      numbers, row counts and keys are integers ([Z]).
    - A JavaScript object used as a record of columns is a finite map
      from column names to values; the rows that the spreadsheet
      reader hands over keep the order of their keys.
    - An exception is a value of [exn]; handlers run in a state and
      exception monad over the component's state and the [World]
      (the remote table, the requests sent to it, the notifications
      shown and the navigations made).
    - The remote table is modelled as far as the client code fixes
      it. What the service decides on its own is outside the model:
      the columns other than [id] that it fills in on an insert,
      its answer to a range that starts after the last row, and
      the folding of letters outside ASCII by [ILIKE]. *)

From Stdlib Require Import ZArith Ascii String DecimalString.
From stdpp Require Import base tactics option list gmap strings sorting.

Local Open Scope Z_scope.

(** ** JavaScript string primitives *)

Module Js.

Definition is_upper (c : ascii) : bool :=
  let n := N_of_ascii c in ((65 <=? n) && (n <=? 90))%N.

Definition lower_ascii (c : ascii) : ascii :=
  if is_upper c then ascii_of_N (N_of_ascii c + 32) else c.

(** [String.prototype.toLowerCase] *)
Fixpoint toLowerCase (s : string) : string :=
  match s with
  | EmptyString => EmptyString
  | String c s' => String (lower_ascii c) (toLowerCase s')
  end.

(** White space of [String.prototype.trim]: TAB, LF, VT, FF, CR, SP. *)
Definition is_space (c : ascii) : bool :=
  let n := N_of_ascii c in (((9 <=? n) && (n <=? 13)) || (n =? 32))%N.

Fixpoint trimStart (s : string) : string :=
  match s with
  | EmptyString => EmptyString
  | String c s' => if is_space c then trimStart s' else s
  end.

Fixpoint trimEnd (s : string) : string :=
  match s with
  | EmptyString => EmptyString
  | String c s' =>
      match trimEnd s' with
      | EmptyString => if is_space c then EmptyString else String c EmptyString
      | t => String c t
      end
  end.

(** [String.prototype.trim] *)
Definition trim (s : string) : string := trimEnd (trimStart s).

(** [s.startsWith(p)] *)
Fixpoint startsWith (s p : string) : bool :=
  match p, s with
  | EmptyString, _ => true
  | String _ _, EmptyString => false
  | String a p', String b s' => Ascii.eqb a b && startsWith s' p'
  end.

(** [s.includes(p)] *)
Fixpoint includes (s p : string) : bool :=
  startsWith s p ||
  match s with
  | EmptyString => false
  | String _ s' => includes s' p
  end.

(** [l.join(sep)] *)
Fixpoint join (sep : string) (l : list string) : string :=
  match l with
  | [] => EmptyString
  | [x] => x
  | x :: l' => x +:+ sep +:+ join sep l'
  end.

(** [s.split(sep)[0]] for a one-character separator: the text before
    the first occurrence of [sep], the whole of [s] without one. *)
Fixpoint split_head (sep : ascii) (s : string) : string :=
  match s with
  | EmptyString => EmptyString
  | String c s' => if Ascii.eqb c sep then EmptyString else String c (split_head sep s')
  end.

(** A string in a condition: the empty string is falsy. *)
Definition truthy (s : string) : bool :=
  match s with EmptyString => false | _ => true end.

End Js.

(** ** The Date object (ECMA-262, section "Date Objects")

    Time values are integer milliseconds since 1970-01-01T00:00Z;
    [None] is the invalid date (time value NaN). *)

Module EcmaDate.

Definition msPerDay : Z := 86400000.
Definition msPerHour : Z := 3600000.
Definition msPerMinute : Z := 60000.
Definition msPerSecond : Z := 1000.

Definition Day (t : Z) : Z := t / msPerDay.
Definition TimeWithinDay (t : Z) : Z := t mod msPerDay.

Definition is_leap (y : Z) : bool :=
  if negb (y mod 4 =? 0) then false
  else if negb (y mod 100 =? 0) then true
  else if negb (y mod 400 =? 0) then false
  else true.

Definition DaysInYear (y : Z) : Z := if is_leap y then 366 else 365.

Definition DayFromYear (y : Z) : Z :=
  365 * (y - 1970) + (y - 1969) / 4 - (y - 1901) / 100 + (y - 1601) / 400.

Definition TimeFromYear (y : Z) : Z := msPerDay * DayFromYear y.

(** The largest year whose first day is not after day [d], searched
    downwards from a year that cannot be too small: a year has at
    least 365 and at most 366 days. *)
Fixpoint year_search (fuel : nat) (d y : Z) : Z :=
  if DayFromYear y <=? d then y
  else match fuel with
       | O => y
       | S fuel' => year_search fuel' d (y - 1)
       end.

Definition YearFromDay (d : Z) : Z :=
  let hi := 1970 + Z.max (d / 365) (d / 366) in
  let lo := 1970 + Z.min (d / 365) (d / 366) in
  year_search (Z.to_nat (hi - lo)) d hi.

Definition YearFromTime (t : Z) : Z := YearFromDay (Day t).

Definition InLeapYear (t : Z) : Z :=
  if is_leap (YearFromTime t) then 1 else 0.

Definition DayWithinYear (t : Z) : Z := Day t - DayFromYear (YearFromTime t).

(** Month number, 0 for January to 11 for December. *)
Definition MonthFromTime (t : Z) : Z :=
  let d := DayWithinYear t in
  let l := InLeapYear t in
  if d <? 31 then 0
  else if d <? 59 + l then 1
  else if d <? 90 + l then 2
  else if d <? 120 + l then 3
  else if d <? 151 + l then 4
  else if d <? 181 + l then 5
  else if d <? 212 + l then 6
  else if d <? 243 + l then 7
  else if d <? 273 + l then 8
  else if d <? 304 + l then 9
  else if d <? 334 + l then 10
  else 11.

(** Day of the month, 1 to 31. *)
Definition DateFromTime (t : Z) : Z :=
  let d := DayWithinYear t in
  let l := InLeapYear t in
  match MonthFromTime t with
  | 0 => d + 1
  | 1 => d - 30
  | 2 => d - 58 - l
  | 3 => d - 89 - l
  | 4 => d - 119 - l
  | 5 => d - 150 - l
  | 6 => d - 180 - l
  | 7 => d - 211 - l
  | 8 => d - 242 - l
  | 9 => d - 272 - l
  | 10 => d - 303 - l
  | _ => d - 333 - l
  end.

Definition HourFromTime (t : Z) : Z := (t / msPerHour) mod 24.
Definition MinFromTime (t : Z) : Z := (t / msPerMinute) mod 60.
Definition SecFromTime (t : Z) : Z := (t / msPerSecond) mod 60.
Definition msFromTime (t : Z) : Z := t mod msPerSecond.

(** Days before month [m] (0 to 11) in a year, leap or not. *)
Definition days_before_month (leap : bool) (m : Z) : Z :=
  let l := if leap then 1 else 0 in
  match m with
  | 0 => 0
  | 1 => 31
  | 2 => 59 + l
  | 3 => 90 + l
  | 4 => 120 + l
  | 5 => 151 + l
  | 6 => 181 + l
  | 7 => 212 + l
  | 8 => 243 + l
  | 9 => 273 + l
  | 10 => 304 + l
  | _ => 334 + l
  end.

(** Days of month [m] (0 to 11). *)
Definition DaysInMonth (leap : bool) (m : Z) : Z :=
  match m with
  | 1 => if leap then 29 else 28
  | 3 | 5 | 8 | 10 => 30
  | _ => 31
  end.

(** [MakeDay(year, month, date)] on integers. *)
Definition MakeDay (year month date : Z) : Z :=
  let ym := year + month / 12 in
  let mn := month mod 12 in
  DayFromYear ym + days_before_month (is_leap ym) mn + date - 1.

Definition MakeDate (day time : Z) : Z := day * msPerDay + time.

(** [TimeClip]: a time value more than 8.64e15 ms from the epoch is
    not representable. *)
Definition TimeClip (t : Z) : option Z :=
  if Z.abs t <=? 8640000000000000 then Some t else None.

(** [new Date(year, monthIndex, day)]: the arguments are a local
    time; [tza] is the offset of the local time zone from UTC, in
    milliseconds, in effect at that local time (positive east of
    Greenwich). *)
Definition Date_ymd (tza : Z) (year month date : Z) : option Z :=
  let yr := if (0 <=? year) && (year <=? 99) then 1900 + year else year in
  TimeClip (MakeDate (MakeDay yr month date) 0 - tza).

(** [new Date(value)] for a numeric [value]. *)
Definition Date_of_number (v : Z) : option Z := TimeClip v.

Definition digit (n : Z) : ascii := ascii_of_N (48 + Z.to_N (n mod 10)).

(** The last [k] decimal digits of [n], most significant first. *)
Fixpoint pad (k : nat) (n : Z) : string :=
  match k with
  | O => EmptyString
  | S k' => pad k' (n / 10) +:+ String (digit n) EmptyString
  end.

(** The year of [Date.prototype.toISOString]: four digits from 0 to
    9999, a sign and six digits otherwise. *)
Definition iso_year (y : Z) : string :=
  if (0 <=? y) && (y <=? 9999) then pad 4 y
  else if y <? 0 then "-" +:+ pad 6 (- y)
  else "+" +:+ pad 6 y.

(** The [YYYY-MM-DD] part of the ISO format of the UTC day [d]. *)
Definition iso_date_of_day (d : Z) : string :=
  let t := d * msPerDay in
  iso_year (YearFromTime t) +:+ "-" +:+ pad 2 (MonthFromTime t + 1)
    +:+ "-" +:+ pad 2 (DateFromTime t).

(** [Date.prototype.toISOString] on a valid time value:
    [YYYY-MM-DDTHH:mm:ss.sssZ] in UTC. *)
Definition iso_string (t : Z) : string :=
  iso_year (YearFromTime t) +:+ "-" +:+ pad 2 (MonthFromTime t + 1)
    +:+ "-" +:+ pad 2 (DateFromTime t)
    +:+ "T" +:+ pad 2 (HourFromTime t) +:+ ":" +:+ pad 2 (MinFromTime t)
    +:+ ":" +:+ pad 2 (SecFromTime t) +:+ "." +:+ pad 3 (msFromTime t) +:+ "Z".

End EcmaDate.

(** ** Values, objects, exceptions *)

(** A cell of a sheet, a column of a stored row, a property of a
    JavaScript object. *)
Inductive val : Type :=
| VNum (n : Z)
| VStr (s : string)
| VBool (b : bool).

Global Instance val_eq_dec : EqDecision val.
Proof. solve_decision. Defined.

(** An object as a map from property names to values. *)
Abbreviation obj := (gmap string val).

(** A row as [XLSX.utils.sheet_to_json] returns it: the header names
    with the cells below them, in the order [Object.keys] lists them. *)
Definition row : Type := list (string * val).

(** An [Error] object; only its [message] is ever read. *)
Record exn : Type := { message : string }.

Global Instance exn_eq_dec : EqDecision exn.
Proof. solve_decision. Defined.

Inductive result (A : Type) : Type :=
| Ok (a : A)
| Throw (e : exn).
Arguments Ok {A} a.
Arguments Throw {A} e.

Global Instance result_eq_dec {A} `{EqDecision A} : EqDecision (result A).
Proof. solve_decision. Defined.

Global Instance result_ret : MRet result := fun A a => Ok a.
Global Instance result_bind : MBind result := fun A B f m =>
  match m with
  | Ok a => f a
  | Throw e => Throw e
  end.

(** [l.map(f)] for an [f] that may throw: the first exception ends it. *)
Fixpoint map_throwing {A B : Type} (f : A -> result B) (l : list A) : result (list B) :=
  match l with
  | [] => Ok []
  | x :: l' => y ← f x; ys ← map_throwing f l'; Ok (y :: ys)
  end.

(** [l.filter(p)] for a [p] that may throw. *)
Fixpoint filter_throwing {A : Type} (p : A -> result bool) (l : list A) : result (list A) :=
  match l with
  | [] => Ok []
  | x :: l' => b ← p x; ys ← filter_throwing p l'; Ok (if b : bool then x :: ys else ys)
  end.

(** [key in o]. The right operand must be an object: on [undefined]
    the operator throws a [TypeError] (the wording is V8's). The
    properties that every object inherits are left out; none of them
    has the name of a column. *)
Definition js_in (key : string) (o : option obj) : result bool :=
  match o with
  | Some r => Ok (bool_decide (is_Some (r !! key)))
  | None =>
      Throw {| message := "Cannot use 'in' operator to search for '" +:+ key +:+ "' in undefined" |}
  end.

(** [o[key] = v] on an object made by [{}], for a primitive [v].
    The name [__proto__] is an accessor that every object inherits
    from [Object.prototype]; its setter ignores a primitive, so the
    assignment creates no property. Under any other name [v] is
    stored as a property of [o]. *)
Definition js_set (key : string) (v : val) (o : obj) : obj :=
  if String.eqb key "__proto__" then o else <[key := v]> o.

(** [date.toISOString()]: a [RangeError] on the invalid date. *)
Definition toISOString (d : option Z) : result string :=
  match d with
  | Some t => Ok (EcmaDate.iso_string t)
  | None => Throw {| message := "Invalid time value" |}
  end.

(** Decimal text of a number in a template literal. *)
Definition show_Z (n : Z) : string :=
  DecimalString.NilZero.string_of_int (Z.to_int n).

(** ** The remote table and the requests of the query builder *)

Inductive filter : Type :=
| Eq (column : string) (v : val)
| Neq (column : string) (v : val)
| Ilike (column : string) (pattern : string).

Inductive request : Type :=
| Insert (rows : list obj)
| Update (payload : obj) (filters : list filter)
| Delete (filters : list filter)
| Select (order : string * bool) (filters : list filter) (range : option (Z * Z))
| AuthSignOut (scope : string).

Global Instance filter_eq_dec : EqDecision filter.
Proof. solve_decision. Defined.

Global Instance request_eq_dec : EqDecision request.
Proof. solve_decision. Defined.

Module Store.

(** SQL [LIKE]: [%] stands for any run of characters, [_] for any
    one character, a backslash takes the next character literally;
    the REST layer in front of the table reads [*] as [%]. *)
Fixpoint like (p s : string) {struct p} : bool :=
  match p with
  | EmptyString => match s with EmptyString => true | _ => false end
  | String c p' =>
      if Ascii.eqb c "%" || Ascii.eqb c "*" then
        (fix any (s : string) : bool :=
           like p' s || match s with
                        | EmptyString => false
                        | String _ s' => any s'
                        end) s
      else if Ascii.eqb c "_" then
        match s with
        | EmptyString => false
        | String _ s' => like p' s'
        end
      else if Ascii.eqb c "\" then
        match p', s with
        | String e p'', String d s' => Ascii.eqb e d && like p'' s'
        | _, _ => false
        end
      else
        match s with
        | EmptyString => false
        | String d s' => Ascii.eqb c d && like p' s'
        end
  end%char.

(** SQL [ILIKE]: [LIKE] without regard to letter case. Letters are
    folded as [Js.toLowerCase] folds them, that is the ASCII
    letters; how the store folds other letters depends on its
    collation and is outside the model. *)
Definition ilike (s pattern : string) : bool :=
  like (Js.toLowerCase pattern) (Js.toLowerCase s).

(** A comparison with a missing (NULL) column selects nothing. *)
Definition matches (f : filter) (r : obj) : bool :=
  match f with
  | Eq c v => bool_decide (r !! c = Some v)
  | Neq c v =>
      match r !! c with
      | Some w => negb (bool_decide (w = v))
      | None => false
      end
  | Ilike c p =>
      match r !! c with
      | Some (VStr s) => ilike s p
      | _ => false
      end
  end.

Definition selects (fs : list filter) (r : obj) : bool :=
  forallb (fun f => matches f r) fs.

(** The order of a column: numbers by size, text by character
    codes, a missing value above everything (the default of a
    descending SQL order puts it first). *)
Definition value_leb (a b : option val) : bool :=
  match a, b with
  | _, None => true
  | None, Some _ => false
  | Some (VBool x), Some (VBool y) => implb x y
  | Some (VBool _), Some _ => true
  | Some (VNum _), Some (VBool _) => false
  | Some (VNum x), Some (VNum y) => x <=? y
  | Some (VNum _), Some (VStr _) => true
  | Some (VStr x), Some (VStr y) => String.leb x y
  | Some (VStr _), Some _ => false
  end.

(** [r1] may stand before [r2] under [order(column, {ascending})]. *)
Definition before (order : string * bool) (r1 r2 : obj) : Prop :=
  let '(column, ascending) := order in
  if ascending then value_leb (r1 !! column) (r2 !! column)
  else value_leb (r2 !! column) (r1 !! column).

Global Instance before_dec order r1 r2 : Decision (before order r1 r2).
Proof. destruct order as [c []]; simpl; apply _. Defined.

(** [range(from, to)]: the rows at offsets [from] to [to], both
    included. A range that starts after the last row is answered
    here with no rows; the service may refuse such a range instead,
    which the client code does not settle. *)
Definition slice (range : option (Z * Z)) (l : list obj) : list obj :=
  match range with
  | None => l
  | Some (from, to) => take (Z.to_nat (to - from + 1)) (drop (Z.to_nat from) l)
  end.

(** The rows an insert stores: a row without an [id] gets the next
    value of the table's sequence. The other columns that the
    server fills in on its own, such as the creation time, are not
    modelled: a stored row is described by its [id] and by the
    columns that the client sent. *)
Fixpoint assign_ids (next : Z) (rows : list obj) : list obj * Z :=
  match rows with
  | [] => ([], next)
  | r :: rows' =>
      match r !! "id" with
      | Some _ => let '(l, n) := assign_ids next rows' in (r :: l, n)
      | None => let '(l, n) := assign_ids (next + 1) rows' in (<["id" := VNum next]> r :: l, n)
      end
  end.

(** An update writes the columns of the payload over the row. *)
Definition patch (payload r : obj) : obj := payload ∪ r.

(** The table after a request was carried out. *)
Definition carry_out (q : request) (table : list obj) (next : Z) : list obj * Z :=
  match q with
  | Insert rows => let '(l, n) := assign_ids next rows in (table ++ l, n)
  | Update payload fs =>
      (map (fun r => if selects fs r then patch payload r else r) table, next)
  | Delete fs => (List.filter (fun r => negb (selects fs r)) table, next)
  | Select _ _ _ => (table, next)
  | AuthSignOut _ => (table, next)
  end.

(** The rows a [select] returns, and the exact count of the rows
    its filters select. *)
Definition selected (fs : list filter) (table : list obj) : list obj :=
  List.filter (selects fs) table.

Definition rows_of (q : request) (table : list obj) : list obj :=
  match q with
  | Select order fs range => slice range (merge_sort (before order) (selected fs table))
  | _ => []
  end.

Definition count_of (q : request) (table : list obj) : option Z :=
  match q with
  | Select _ fs _ => Some (Z.of_nat (length (selected fs table)))
  | _ => None
  end.

End Store.

(** ** The world of a handler and the handler monad *)

Inductive toast : Type :=
| ToastError (msg : string)
| ToastSuccess (msg : string).

Global Instance toast_eq_dec : EqDecision toast.
Proof. solve_decision. Defined.

(** What a handler can change outside its component: the remote
    table with its key sequence, the requests sent so far, the
    notifications shown so far and the [navigate] calls made so far
    (path and [replace] flag); the three logs are oldest first. *)
Record World : Type := {
  table : list obj;
  next_id : Z;
  sent : list request;
  toasts : list toast;
  visited : list (string * bool)
}.

Global Instance World_eq_dec : EqDecision World.
Proof. solve_decision. Defined.

(** What the client resolves a request to. *)
Record response : Type := {
  data : list obj;
  count : option Z;
  error : option exn
}.

(** A handler over a component state [C]: it ends normally or by an
    exception, and in both cases leaves a state and a world. *)
Definition M (C A : Type) : Type := C -> World -> result A * C * World.

Global Instance M_ret {C} : MRet (M C) := fun A a c w => (Ok a, c, w).
Global Instance M_bind {C} : MBind (M C) := fun A B f m c w =>
  match m c w with
  | (Ok a, c', w') => f a c' w'
  | (Throw e, c', w') => (Throw e, c', w')
  end.

Definition throw {C A} (e : exn) : M C A := fun c w => (Throw e, c, w).

(** A computation without effects that may throw. *)
Definition lift {C A} (r : result A) : M C A := fun c w => (r, c, w).

(** [try { body } catch (e) { handler }] *)
Definition try_catch {C A} (body : M C A) (handler : exn -> M C A) : M C A :=
  fun c w =>
    match body c w with
    | (Throw e, c', w') => handler e c' w'
    | r => r
    end.

(** [try { body } finally { final }] *)
Definition try_finally {C A} (body : M C A) (final : M C unit) : M C A :=
  fun c w =>
    let '(r, c', w') := body c w in
    match final c' w' with
    | (Ok _, c'', w'') => (r, c'', w'')
    | (Throw e, c'', w'') => (Throw e, c'', w'')
    end.

(** A state setter of the component. *)
Definition set_state {C} (f : C -> C) : M C unit := fun c w => (Ok tt, f c, w).

(** The world with one more notification, navigation or request. *)
Definition notify (t : toast) (w : World) : World :=
  {| table := table w; next_id := next_id w; sent := sent w;
     toasts := toasts w ++ [t]; visited := visited w |}.

Definition visit (path : string) (replace : bool) (w : World) : World :=
  {| table := table w; next_id := next_id w; sent := sent w;
     toasts := toasts w; visited := visited w ++ [(path, replace)] |}.

Definition record (q : request) (w : World) : World :=
  {| table := table w; next_id := next_id w; sent := sent w ++ [q];
     toasts := toasts w; visited := visited w |}.

(** The world after the remote side carried out [q]. *)
Definition served (q : request) (w : World) : World :=
  let '(t, n) := Store.carry_out q (table w) (next_id w) in
  {| table := t; next_id := n; sent := sent w ++ [q];
     toasts := toasts w; visited := visited w |}.

Definition toast_error {C} (msg : string) : M C unit := fun c w =>
  (Ok tt, c, notify (ToastError msg) w).

Definition toast_success {C} (msg : string) : M C unit := fun c w =>
  (Ok tt, c, notify (ToastSuccess msg) w).

Definition navigate {C} (path : string) (replace : bool) : M C unit := fun c w =>
  (Ok tt, c, visit path replace w).

(** [await] of a request on the table. [reply] is what the remote
    side decides: [Some e] refuses the request and leaves the table
    as it is, [None] carries it out. The client reports a refusal in
    the [error] field, it does not throw. *)
Definition send {C} (q : request) (reply : option exn) : M C response := fun c w =>
  match reply with
  | Some e => (Ok {| data := []; count := None; error := Some e |}, c, record q w)
  | None =>
      (Ok {| data := Store.rows_of q (table w); count := Store.count_of q (table w);
             error := None |}, c, served q w)
  end.

(** [await supabase.auth.signOut({scope})]: it resolves to an
    [error] field or, on an unexpected failure, throws. *)
Definition auth_signOut {C} (scope : string) (outcome : result (option exn))
  : M C (option exn) := fun c w => (outcome, c, record (AuthSignOut scope) w).

(** ** Settings: import and delete-all ([Settings.tsx]) *)

Module Settings.

Record State : Type := {
  showDeleteDialog : bool;
  deleteConfirmation : string;
  importing : bool
}.

Global Instance State_eq_dec : EqDecision State.
Proof. solve_decision. Defined.

Definition with_showDeleteDialog (b : bool) (s : State) : State :=
  {| showDeleteDialog := b; deleteConfirmation := deleteConfirmation s;
     importing := importing s |}.
Definition with_deleteConfirmation (t : string) (s : State) : State :=
  {| showDeleteDialog := showDeleteDialog s; deleteConfirmation := t;
     importing := importing s |}.
Definition with_importing (b : bool) (s : State) : State :=
  {| showDeleteDialog := showDeleteDialog s; deleteConfirmation := deleteConfirmation s;
     importing := b |}.

Definition setShowDeleteDialog (b : bool) : M State unit :=
  set_state (with_showDeleteDialog b).
Definition setDeleteConfirmation (t : string) : M State unit :=
  set_state (with_deleteConfirmation t).
Definition setImporting (b : bool) : M State unit :=
  set_state (with_importing b).

(** The serial date of a cell as a [Date]: the local midnight of
    1900-01-01 plus [value - 2] days. *)
Definition excel_date (tza : Z) (value : Z) : option Z :=
  epoch ← EcmaDate.Date_ymd tza 1900 0 1;
  EcmaDate.Date_of_number (epoch + (value - 2) * 24 * 60 * 60 * 1000).

(** The value stored under [normalizedKey]. *)
Definition normalize_value (tza : Z) (normalizedKey : string) (value : val)
  : result val :=
  match value with
  | VNum n =>
      if String.eqb normalizedKey "date" then
        iso ← toISOString (excel_date tza n);
        Ok (VStr (Js.split_head "T" iso))
      else Ok value
  | _ => Ok value
  end.

(** The body of [Object.keys(row).forEach]. *)
Definition normalize_key (tza : Z) (normalizedRow : obj) (kv : string * val)
  : result obj :=
  let normalizedKey := Js.toLowerCase (Js.trim kv.1) in
  value ← normalize_value tza normalizedKey kv.2;
  Ok (js_set normalizedKey value normalizedRow).

Fixpoint normalize_keys (tza : Z) (normalizedRow : obj) (r : row) : result obj :=
  match r with
  | [] => Ok normalizedRow
  | kv :: r' => o ← normalize_key tza normalizedRow kv; normalize_keys tza o r'
  end.

(** The callback of [jsonData.map]. *)
Definition normalizeRow (tza : Z) (r : row) : result obj := normalize_keys tza ∅ r.

Definition normalizedData (tza : Z) (jsonData : list row) : result (list obj) :=
  map_throwing (normalizeRow tza) jsonData.

Definition requiredColumns : list string :=
  ["blotter_entry"; "first_name"; "last_name"; "case_type"; "date"].

Definition missingColumns (firstRow : option obj) : result (list string) :=
  filter_throwing (fun col => b ← js_in col firstRow; Ok (negb b)) requiredColumns.

(** [reader.onload], from the parsed sheet on. [tza] is the offset
    of the browser's time zone, [reply] the answer to the insert. *)
Definition onload (tza : Z) (jsonData : list row) (reply : option exn) : M State unit :=
  try_finally
    (try_catch
       (normalizedData ← lift (normalizedData tza jsonData);
        let firstRow := head normalizedData in
        missingColumns ← lift (missingColumns firstRow);
        if (0 <? Z.of_nat (length missingColumns)) then
          toast_error ("Missing columns: " +:+ Js.join ", " missingColumns);;
          setImporting false
        else
          r ← send (Insert normalizedData) reply;
          match error r with
          | Some e => throw e
          | None =>
              toast_success ("Successfully imported "
                               +:+ show_Z (Z.of_nat (length normalizedData)) +:+ " entries");;
              navigate "/" false
          end)
       (fun e => toast_error ("Error processing file: " +:+ message e)))
    (setImporting false).

(** [handleFileUpload]: nothing happens without a file. *)
Definition handleFileUpload (tza : Z) (file : option (list row)) (reply : option exn)
  : M State unit :=
  match file with
  | None => mret tt
  | Some jsonData => setImporting true;; onload tza jsonData reply
  end.

Definition handleDeleteAll (reply : option exn) : M State unit := fun s =>
  (if negb (String.eqb (deleteConfirmation s) "DELETE") then
     toast_error "Please type DELETE to confirm"
   else
     try_catch
       (r ← send (Delete [Neq "id" (VNum 0)]) reply;
        match error r with
        | Some e => throw e
        | None =>
            toast_success "All entries deleted successfully";;
            setShowDeleteDialog false;;
            setDeleteConfirmation "";;
            navigate "/" false
        end)
       (fun e => toast_error ("Error deleting entries: " +:+ message e))) s.

(** The [disabled] attribute of the dialog's "Delete All" button. *)
Definition deleteAll_disabled (s : State) : bool :=
  negb (String.eqb (deleteConfirmation s) "DELETE").

End Settings.

(** ** Entry detail: update and delete of one entry *)

Module EntryDetail.

Record State : Type := {
  entry : option obj;
  formData : obj;
  isEditing : bool
}.

Definition setEntry (e : obj) : M State unit :=
  set_state (fun s => {| entry := Some e; formData := formData s; isEditing := isEditing s |}).
Definition setIsEditing (b : bool) : M State unit :=
  set_state (fun s => {| entry := entry s; formData := formData s; isEditing := b |}).

(** [const { id: _, created_at: __, ...updateData } = formData] *)
Definition updateData (formData : obj) : obj :=
  delete "created_at" (delete "id" formData).

(** [id] is the key in the route of the page. *)
Definition handleUpdate (id : Z) (reply : option exn) : M State unit := fun s =>
  try_catch
    (r ← send (Update (updateData (formData s)) [Eq "id" (VNum id)]) reply;
     match error r with
     | Some e => throw e
     | None =>
         setEntry (formData s);;
         setIsEditing false;;
         toast_success "Entry updated successfully"
     end)
    (fun e => toast_error ("Error updating entry: " +:+ message e)) s.

Definition handleDelete (id : Z) (reply : option exn) : M State unit :=
  try_catch
    (r ← send (Delete [Eq "id" (VNum id)]) reply;
     match error r with
     | Some e => throw e
     | None =>
         toast_success "Entry deleted successfully";;
         navigate "/" false
     end)
    (fun e => toast_error ("Error deleting entry: " +:+ message e)).

End EntryDetail.

(** ** The session provider: sign-out *)

Module Auth.

Record State : Type := {
  user : option string;
  session : option string;
  loading : bool
}.

Definition setUser (u : option string) : M State unit :=
  set_state (fun s => {| user := u; session := session s; loading := loading s |}).
Definition setSession (t : option string) : M State unit :=
  set_state (fun s => {| user := user s; session := t; loading := loading s |}).
Definition setLoading (b : bool) : M State unit :=
  set_state (fun s => {| user := user s; session := session s; loading := b |}).

(** The test of [signOut] for the error it passes over. *)
Definition session_missing (e : exn) : bool :=
  let msg := Js.toLowerCase (message e) in
  Js.includes msg "session" && Js.includes msg "missing".

(** [global] and [local] are the outcomes of the two calls. *)
Definition signOut (global local : result (option exn)) : M State unit :=
  try_finally
    (try_catch
       (setUser None;;
        setSession None;;
        setLoading true;;
        error ← auth_signOut "global" global;
        _ ← auth_signOut "local" local;
        match error with
        | Some e =>
            if negb (session_missing e) then toast_error (message e)
            else toast_success "Logged out successfully"
        | None => toast_success "Logged out successfully"
        end)
       (fun _ => mret tt))
    (navigate "/login" true;; setLoading false).

End Auth.

(** ** The list view with queries on the remote side *)

Module BlotterList.

Record State : Type := {
  entries : list obj;
  loading : bool;
  currentPage : Z;
  totalPages : Z;
  totalCount : Z
}.

Definition setEntries (l : list obj) : M State unit :=
  set_state (fun s => {| entries := l; loading := loading s; currentPage := currentPage s;
                         totalPages := totalPages s; totalCount := totalCount s |}).
Definition setLoading (b : bool) : M State unit :=
  set_state (fun s => {| entries := entries s; loading := b; currentPage := currentPage s;
                         totalPages := totalPages s; totalCount := totalCount s |}).
Definition setCurrentPage (p : Z) : M State unit :=
  set_state (fun s => {| entries := entries s; loading := loading s; currentPage := p;
                         totalPages := totalPages s; totalCount := totalCount s |}).
Definition setTotalPages (n : Z) : M State unit :=
  set_state (fun s => {| entries := entries s; loading := loading s;
                         currentPage := currentPage s; totalPages := n;
                         totalCount := totalCount s |}).
Definition setTotalCount (n : Z) : M State unit :=
  set_state (fun s => {| entries := entries s; loading := loading s;
                         currentPage := currentPage s; totalPages := totalPages s;
                         totalCount := n |}).

Definition ROWS_PER_PAGE : Z := 20.

(** [Math.ceil(a / b)] for a positive [b]. *)
Definition Math_ceil_div (a b : Z) : Z := - ((- a) / b).

(** The filters that the two search terms add to the query. *)
Definition search_filters (debouncedFirstName debouncedLastName : string) : list filter :=
  (if Js.truthy debouncedFirstName
   then [Ilike "first_name" ("%" +:+ Js.toLowerCase debouncedFirstName +:+ "%")] else [])
  ++
  (if Js.truthy debouncedLastName
   then [Ilike "last_name" ("%" +:+ Js.toLowerCase debouncedLastName +:+ "%")] else []).

(** The query that [fetchEntries] awaits. *)
Definition query (debouncedFirstName debouncedLastName : string) (currentPage : Z)
  : request :=
  Select ("date", false) (search_filters debouncedFirstName debouncedLastName)
    (Some ((currentPage - 1) * ROWS_PER_PAGE, currentPage * ROWS_PER_PAGE - 1)).

(** [fetchEntries] as the fetch effect defines it, with the search
    terms and the page of the render it belongs to. *)
Definition fetchEntries (debouncedFirstName debouncedLastName : string) (page : Z)
    (reply : option exn) : M State unit :=
  try_finally
    (try_catch
       (setLoading true;;
        r ← send (query debouncedFirstName debouncedLastName page) reply;
        match error r with
        | Some e => throw e
        | None =>
            let n := default 0 (count r) in
            setTotalCount n;;
            setTotalPages (Math_ceil_div n ROWS_PER_PAGE);;
            setEntries (data r)
        end)
       (fun e => toast_error ("Error loading entries: " +:+ message e)))
    (setLoading false).

(** *** The effects of the component

    What a render shows to the effects: the two debounced search
    terms, the page and the session. *)
Record View : Type := {
  debouncedFirstName : string;
  debouncedLastName : string;
  page : Z;
  session : option string
}.

Global Instance View_eq_dec : EqDecision View.
Proof. solve_decision. Defined.

Definition with_page (v : View) (p : Z) : View :=
  {| debouncedFirstName := debouncedFirstName v; debouncedLastName := debouncedLastName v;
     page := p; session := session v |}.

Definition with_terms (v : View) (first last : string) : View :=
  {| debouncedFirstName := first; debouncedLastName := last;
     page := page v; session := session v |}.

(** A dependency of an effect changed between the render before
    ([None] at mount) and this one. *)
Definition changed {A} `{EqDecision A} (dep : View -> A) (prev : option View) (cur : View)
  : bool :=
  match prev with
  | None => true
  | Some p => negb (bool_decide (dep p = dep cur))
  end.

(** The effects that run after the render [cur], in the order the
    component declares them; each one reads the values of that
    render. The result is the list of queries they send and the
    page that [setCurrentPage] asks for, which only the next
    render will show.
    - the first fetch, on [session];
    - the page reset, on the two search terms;
    - the fetch, on the search terms, the page and the session. *)
Definition effects (prev : option View) (cur : View) : list request * option Z :=
  let initial :=
    if changed session prev cur && bool_decide (is_Some (session cur))
    then [query "" "" (page cur)] else [] in
  let reset :=
    if changed debouncedFirstName prev cur || changed debouncedLastName prev cur
    then Some 1 else None in
  let fetch :=
    if (changed debouncedFirstName prev cur || changed debouncedLastName prev cur
        || changed page prev cur || changed session prev cur)
       && bool_decide (is_Some (session cur))
    then [query (debouncedFirstName cur) (debouncedLastName cur) (page cur)] else [] in
  (initial ++ fetch, reset).

(** Renders and effects until a state update changes nothing: the
    queries sent on the way, oldest first, and the last render. *)
Fixpoint settle (fuel : nat) (prev : option View) (cur : View) : list request * View :=
  let '(qs, update) := effects prev cur in
  let next := match update with Some p => with_page cur p | None => cur end in
  if bool_decide (next = cur) then (qs, cur)
  else match fuel with
       | O => (qs, next)
       | S fuel' => let '(qs', v) := settle fuel' (Some cur) next in (qs ++ qs', v)
       end.

(** The debounce timers deliver new search terms to a mounted
    component showing [v]. *)
Definition on_search_terms (v : View) (first last : string) : list request * View :=
  settle 2 (Some v) (with_terms v first last).

(** [handlePageChange] *)
Definition handlePageChange (v : View) (newPage : Z) : list request * View :=
  settle 2 (Some v) (with_page v newPage).

End BlotterList.

(** ** The list view that filters in memory *)

Record BlotterEntry : Type := {
  id : option Z;
  blotter_entry : string;
  first_name : string;
  last_name : string;
  case_type : string;
  date : string;
  created_at : option string
}.

Global Instance BlotterEntry_eq_dec : EqDecision BlotterEntry.
Proof. solve_decision. Defined.

(** An entry as a row of the table. *)
Definition to_obj (e : BlotterEntry) : obj :=
  let o : obj :=
    <["blotter_entry" := VStr (blotter_entry e)]>
      (<["first_name" := VStr (first_name e)]>
         (<["last_name" := VStr (last_name e)]>
            (<["case_type" := VStr (case_type e)]>
               (<["date" := VStr (date e)]> ∅)))) in
  let o := match id e with Some n => <["id" := VNum n]> o | None => o end in
  match created_at e with Some t => <["created_at" := VStr t]> o | None => o end.

Module BlotterListLocal.

Record State : Type := {
  entries : list BlotterEntry;
  filteredEntries : list BlotterEntry;
  searchText : string;
  caseTypeFilter : string
}.

Definition setFilteredEntries (l : list BlotterEntry) (s : State) : State :=
  {| entries := entries s; filteredEntries := l; searchText := searchText s;
     caseTypeFilter := caseTypeFilter s |}.

(** The predicate of the search filter. *)
Definition search_hit (search : string) (entry : BlotterEntry) : bool :=
  Js.includes (Js.toLowerCase (first_name entry)) search
  || Js.includes (Js.toLowerCase (last_name entry)) search
  || Js.includes (Js.toLowerCase (case_type entry)) search
  || Js.includes (Js.toLowerCase (blotter_entry entry)) search.

Definition filterEntries (s : State) : State :=
  let filtered := entries s in
  let filtered :=
    if Js.truthy (searchText s) then
      let search := Js.toLowerCase (searchText s) in
      List.filter (search_hit search) filtered
    else filtered in
  let filtered :=
    if negb (String.eqb (caseTypeFilter s) "all") then
      List.filter (fun entry => String.eqb (case_type entry) (caseTypeFilter s)) filtered
    else filtered in
  setFilteredEntries filtered s.

End BlotterListLocal.

(** ** Vocabulary of the specification *)

Module Spec.

(** The day number of 1900-01-01, the epoch of the serial dates. *)
Definition epoch_day : Z := EcmaDate.MakeDay 1900 0 1.

(** The ISO text of the calendar date [v - 2] days after the epoch. *)
Definition serial_date (v : Z) : string :=
  EcmaDate.iso_date_of_day (epoch_day + (v - 2)).

(** A whole serial whose date a [Date] can hold in every time zone. *)
Definition serial_in_range (v : Z) : Prop := -99974430 <= v <= 100025568.

(** The numeric cells under a date header of a row are such serials. *)
Definition dates_in_range (r : row) : Prop :=
  forall k v, (k, VNum v) ∈ r -> Js.toLowerCase (Js.trim k) = "date" -> serial_in_range v.

(** [s] has no character [c]. *)
Fixpoint free_of (c : ascii) (s : string) : bool :=
  match s with
  | EmptyString => true
  | String a s' => negb (Ascii.eqb a c) && free_of c s'
  end.

(** A character that a [LIKE] pattern reads as itself. *)
Definition literal (c : ascii) : bool :=
  negb (Ascii.eqb c "%") && negb (Ascii.eqb c "*") && negb (Ascii.eqb c "_")
  && negb (Ascii.eqb c "\").

(** A search text of such characters only. *)
Fixpoint plain (t : string) : bool :=
  match t with
  | EmptyString => true
  | String c t' => literal c && plain t'
  end.

(** [t] occurs in [s], letter case apart. *)
Definition ci_substring (t s : string) : bool :=
  Js.includes (Js.toLowerCase s) (Js.toLowerCase t).

(** [k] is the smallest integer with [a <= k * b]: the ceiling of
    [a / b]. *)
Definition is_ceiling (a b k : Z) : Prop := b * (k - 1) < a <= b * k.

End Spec.

(** ** Sample entries *)

Module Sample.

Definition john : BlotterEntry :=
  {| id := Some 1; blotter_entry := "Reported a stolen bicycle"; first_name := "John";
     last_name := "Smith"; case_type := "Theft"; date := "2024-01-01";
     created_at := Some "2024-01-02T08:00:00Z" |}.

Definition joan : BlotterEntry :=
  {| id := Some 2; blotter_entry := "Noise complaint"; first_name := "Joan";
     last_name := "Reyes"; case_type := "Disturbance"; date := "2024-02-10";
     created_at := Some "2024-02-10T09:30:00Z" |}.

Definition maria : BlotterEntry :=
  {| id := Some 3; blotter_entry := "Lost wallet at the market"; first_name := "Maria";
     last_name := "Cruz"; case_type := "Lost item"; date := "2024-03-05";
     created_at := Some "2024-03-05T10:00:00Z" |}.

Definition entries : list BlotterEntry := [john; joan; maria].

End Sample.

(** ** More of the client: the entry page, the add form, the pager
    and the filters of the in-memory list *)

(** A handler of a part of a component's state, run on the whole. *)
Definition zoom {C D A} (get : D -> C) (put : C -> D -> D) (m : M C A) : M D A :=
  fun d w => let '(r, c, w') := m (get d) w in (r, put c d, w').

(** The error of [.single()] when the filters do not select exactly
    one row (the wording is PostgREST's). *)
Definition not_single : exn :=
  {| message := "JSON object requested, multiple (or no) rows returned" |}.

(** [await ... .select('*') ... .single()]: the one selected row or
    an error. The log [sent] has no form for this request and is
    left as it is. *)
Definition select_single {C} (filters : list filter) (reply : option exn)
  : M C (obj + exn) := fun c w =>
  match reply with
  | Some e => (Ok (inr e), c, w)
  | None =>
      match Store.selected filters (table w) with
      | [r] => (Ok (inl r), c, w)
      | _ => (Ok (inr not_single), c, w)
      end
  end.

Module EntryPage.

(** The state of the entry page: the part that update and delete
    use, and the two flags beside it. *)
Record State : Type := {
  detail : EntryDetail.State;
  loading : bool;
  showDeleteDialog : bool
}.

Definition with_detail (d : EntryDetail.State) (s : State) : State :=
  {| detail := d; loading := loading s; showDeleteDialog := showDeleteDialog s |}.

Definition setLoading (b : bool) : M State unit :=
  set_state (fun s => {| detail := detail s; loading := b;
                         showDeleteDialog := showDeleteDialog s |}).

Definition on_detail {A} (m : M EntryDetail.State A) : M State A :=
  zoom detail with_detail m.

Definition setFormData (f : obj) : M EntryDetail.State unit :=
  set_state (fun s => {| EntryDetail.entry := EntryDetail.entry s;
                         EntryDetail.formData := f;
                         EntryDetail.isEditing := EntryDetail.isEditing s |}).

(** [fetchEntry], for the key [id] of the route. *)
Definition fetchEntry (id : Z) (reply : option exn) : M State unit :=
  try_finally
    (try_catch
       (r ← select_single [Eq "id" (VNum id)] reply;
        match r with
        | inr e => throw e
        | inl data => on_detail (EntryDetail.setEntry data;; setFormData data)
        end)
       (fun e => toast_error ("Error loading entry: " +:+ message e);;
                 navigate "/" false))
    (setLoading false).

(** [handleChange]: the input named [name] now holds [value]. *)
Definition handleChange (name value : string) : M EntryDetail.State unit :=
  set_state (fun s => {| EntryDetail.entry := EntryDetail.entry s;
                         EntryDetail.formData := <[name := VStr value]> (EntryDetail.formData s);
                         EntryDetail.isEditing := EntryDetail.isEditing s |}).

(** A run of changes of the inputs, oldest first. *)
Fixpoint handleChanges (edits : list (string * string)) : M EntryDetail.State unit :=
  match edits with
  | [] => mret tt
  | (name, value) :: edits' => handleChange name value;; handleChanges edits'
  end.

(** The button that opens the form. *)
Definition startEditing : M EntryDetail.State unit := EntryDetail.setIsEditing true.

(** The button that closes the form: [setIsEditing(false);
    setFormData(entry)]. The page shows it only with an entry. *)
Definition cancelEditing : M EntryDetail.State unit := fun s w =>
  match EntryDetail.entry s with
  | Some entry => (EntryDetail.setIsEditing false;; setFormData entry) s w
  | None => (Ok tt, s, w)
  end.

End EntryPage.

Module AddEntry.

Record State : Type := {
  formData : obj;
  loading : bool
}.

Definition setLoading (b : bool) : M State unit :=
  set_state (fun s => {| formData := formData s; loading := b |}).

(** [new Date().toISOString().split('T')[0]] at the instant [now]. *)
Definition today (now : Z) : string := Js.split_head "T" (EcmaDate.iso_string now).

(** The state of the form when the page opens at the instant [now]. *)
Definition initial (now : Z) : State :=
  {| formData :=
       <["first_name" := VStr ""]> (<["last_name" := VStr ""]> (<["case_type" := VStr ""]>
         (<["date" := VStr (today now)]> (<["blotter_entry" := VStr ""]> ∅))));
     loading := false |}.

Definition handleChange (name value : string) : M State unit :=
  set_state (fun s => {| formData := <[name := VStr value]> (formData s);
                         loading := loading s |}).

(** A run of changes of the inputs, oldest first. *)
Fixpoint handleChanges (edits : list (string * string)) : M State unit :=
  match edits with
  | [] => mret tt
  | (name, value) :: edits' => handleChange name value;; handleChanges edits'
  end.

Definition handleSubmit (reply : option exn) : M State unit := fun s =>
  (setLoading true;;
   try_finally
     (try_catch
        (r ← send (Insert [formData s]) reply;
         match error r with
         | Some e => throw e
         | None => toast_success "Entry added successfully";; navigate "/" false
         end)
        (fun e => toast_error ("Error adding entry: " +:+ message e)))
     (setLoading false)) s.

End AddEntry.

Module Pager.

Import BlotterList.

(** The pager is rendered with more than one page. *)
Definition pagination_shown (totalPages : Z) : bool := 1 <? totalPages.

(** The [disabled] attributes of its two buttons. *)
Definition previous_disabled (currentPage : Z) : bool := currentPage =? 1.
Definition next_disabled (currentPage totalPages : Z) : bool := totalPages <=? currentPage.

Inductive click : Type := Previous | Next.

(** A click on a button of the pager; a button that is not rendered
    or is disabled does nothing. *)
Definition on_click (totalPages : Z) (v : View) (c : click) : list request * View :=
  if negb (pagination_shown totalPages) then ([], v)
  else match c with
       | Previous =>
           if previous_disabled (page v) then ([], v) else handlePageChange v (page v - 1)
       | Next =>
           if next_disabled (page v) totalPages then ([], v)
           else handlePageChange v (page v + 1)
       end.

(** A run of clicks while the number of pages stays the same: the
    queries sent, oldest first, and the render at the end. *)
Fixpoint on_clicks (totalPages : Z) (v : View) (cs : list click) : list request * View :=
  match cs with
  | [] => ([], v)
  | c :: cs' =>
      let '(qs, v') := on_click totalPages v c in
      let '(qs', v'') := on_clicks totalPages v' cs' in
      (qs ++ qs', v'')
  end.

(** The first render of the component. *)
Definition mount (v : View) : list request * View := settle 2 None v.

(** The provider hands a new session to a mounted component. *)
Definition on_session (v : View) (s : option string) : list request * View :=
  settle 2 (Some v)
    {| debouncedFirstName := debouncedFirstName v; debouncedLastName := debouncedLastName v;
       page := page v; session := s |}.

End Pager.

Module LocalFilters.

Import BlotterListLocal.

(** [Set.prototype.add] on a set kept in insertion order. *)
Definition set_add (acc : list string) (x : string) : list string :=
  if bool_decide (x ∈ acc) then acc else acc ++ [x].

(** [getCaseTypes]: [Array.from(new Set(entries.map(e => e.case_type)))]. *)
Definition getCaseTypes (s : State) : list string :=
  foldl set_add [] (map case_type (entries s)).

Definition with_filters (searchText caseTypeFilter : string) (s : State) : State :=
  {| entries := entries s; filteredEntries := filteredEntries s;
     searchText := searchText; caseTypeFilter := caseTypeFilter |}.

(** The search box, an item of the case-type list and the reset
    button set their state; the effect on [entries], [searchText]
    and [caseTypeFilter] then filters again. *)
Definition on_searchText (t : string) (s : State) : State :=
  filterEntries (with_filters t (caseTypeFilter s) s).

Definition on_caseType (type : string) (s : State) : State :=
  filterEntries (with_filters (searchText s) type s).

Definition resetFilters (s : State) : State :=
  filterEntries (with_filters "" "all" s).

End LocalFilters.

Module MoreSpec.

(** The normalized key of a header. *)
Definition key_of (k : string) : string := Js.toLowerCase (Js.trim k).

(** The last cell of a row whose header normalizes to [col]. *)
Fixpoint last_cell (col : string) (r : row) : option (string * val) :=
  match r with
  | [] => None
  | (k, v) :: r' =>
      match last_cell col r' with
      | Some x => Some x
      | None => if bool_decide (key_of k = col) then Some (k, v) else None
      end
  end.

(** A form after a run of changes of its inputs, oldest first. *)
Definition apply_edits (form : obj) (edits : list (string * string)) : obj :=
  foldl (fun f e => <[e.1 := VStr e.2]> f) form edits.

(** Text of ASCII characters only. *)
Fixpoint ascii_text (s : string) : bool :=
  match s with
  | EmptyString => true
  | String c s' => (N_of_ascii c <? 128)%N && ascii_text s'
  end.

(** An entry that the in-memory list shows for a search text and a
    chosen case type: the text occurs, letter case apart, in one of
    four fields, and the case type is the chosen one unless [all]
    is chosen. *)
Definition shown (text type : string) (e : BlotterEntry) : bool :=
  (Spec.ci_substring text (first_name e) || Spec.ci_substring text (last_name e)
   || Spec.ci_substring text (case_type e) || Spec.ci_substring text (blotter_entry e))
  && (String.eqb type "all" || String.eqb (case_type e) type).

(** The key column of the rows of a table. *)
Definition keys (tbl : list obj) : list (option val) := map (fun r : obj => r !! "id") tbl.

End MoreSpec.

(** * Properties *)

(** ** The calendar *)

Section Calendar.
Import EcmaDate.

Lemma DayFromYear_next y : DayFromYear (y + 1) = DayFromYear y + DaysInYear y.
Proof.
  unfold DayFromYear, DaysInYear, is_leap.
  replace (y + 1 - 1969) with (y - 1969 + 1) by lia.
  replace (y + 1 - 1901) with (y - 1901 + 1) by lia.
  replace (y + 1 - 1601) with (y - 1601 + 1) by lia.
  repeat match goal with
         | |- context [?a =? ?b] => destruct (Z.eqb_spec a b)
         end; simpl; Z.div_mod_to_equations; lia.
Qed.

Lemma DayFromYear_bounds_after y :
  1970 <= y -> 365 * (y - 1970) <= DayFromYear y <= 366 * (y - 1970).
Proof. intros H. unfold DayFromYear. Z.div_mod_to_equations. lia. Qed.

Lemma DayFromYear_bounds_before y :
  y <= 1970 -> 366 * (y - 1970) <= DayFromYear y <= 365 * (y - 1970).
Proof. intros H. unfold DayFromYear. Z.div_mod_to_equations. lia. Qed.

Lemma DaysInYear_pos y : 365 <= DaysInYear y <= 366.
Proof. unfold DaysInYear. destruct (is_leap y); lia. Qed.

Lemma year_search_found fuel : forall d y,
  d < DayFromYear (y + 1) ->
  DayFromYear (y - Z.of_nat fuel) <= d ->
  DayFromYear (year_search fuel d y) <= d < DayFromYear (year_search fuel d y + 1).
Proof.
  induction fuel as [|fuel IH]; intros d y Hhi Hlo; simpl year_search.
  - replace (y - Z.of_nat 0) with y in Hlo by lia.
    destruct (Z.leb_spec (DayFromYear y) d); lia.
  - destruct (Z.leb_spec (DayFromYear y) d) as [Hle|Hgt]; [lia|].
    apply IH.
    + replace (y - 1 + 1) with y by lia. exact Hgt.
    + replace (y - 1 - Z.of_nat fuel) with (y - Z.of_nat (S fuel)) by lia. exact Hlo.
Qed.

(** [YearFromDay d] is the year that day [d] lies in: the search
    never runs out of fuel. *)
Lemma YearFromDay_spec d :
  DayFromYear (YearFromDay d) <= d < DayFromYear (YearFromDay d + 1).
Proof.
  unfold YearFromDay.
  set (hi := 1970 + Z.max (d / 365) (d / 366)).
  set (lo := 1970 + Z.min (d / 365) (d / 366)).
  assert (Hlohi : lo <= hi) by (unfold lo, hi; lia).
  apply year_search_found.
  - destruct (Z.le_gt_cases 0 d) as [Hd|Hd].
    + pose proof (DayFromYear_bounds_after (hi + 1)) as B.
      unfold hi in *. Z.div_mod_to_equations. lia.
    + pose proof (DayFromYear_bounds_before (hi + 1)) as B.
      unfold hi in *. Z.div_mod_to_equations. lia.
  - replace (hi - Z.of_nat (Z.to_nat (hi - lo))) with lo by lia.
    destruct (Z.le_gt_cases 0 d) as [Hd|Hd].
    + pose proof (DayFromYear_bounds_after lo) as B.
      unfold lo in *. Z.div_mod_to_equations. lia.
    + pose proof (DayFromYear_bounds_before lo) as B.
      unfold lo in *. Z.div_mod_to_equations. lia.
Qed.

Lemma DayFromYear_mono a b : a < b -> DayFromYear a < DayFromYear b.
Proof. intros H. unfold DayFromYear. Z.div_mod_to_equations. lia. Qed.

Lemma YearFromDay_unique y d :
  DayFromYear y <= d < DayFromYear (y + 1) -> YearFromDay d = y.
Proof.
  intros H. pose proof (YearFromDay_spec d) as S.
  destruct (Z.lt_trichotomy (YearFromDay d) y) as [Hlt|[Heq|Hgt]]; [|exact Heq|].
  - destruct (Z.eq_dec (YearFromDay d + 1) y) as [E|E].
    + rewrite E in S. lia.
    + pose proof (DayFromYear_mono (YearFromDay d + 1) y). lia.
  - destruct (Z.eq_dec (y + 1) (YearFromDay d)) as [E|E].
    + rewrite <- E in S. lia.
    + pose proof (DayFromYear_mono (y + 1) (YearFromDay d)). lia.
Qed.

(** A calendar date made into a time value reads back as itself. *)
Lemma MakeDay_reads_back y m d :
  0 <= m < 12 ->
  1 <= d <= DaysInMonth (is_leap y) m ->
  let t := MakeDate (MakeDay y m d) 0 in
  YearFromTime t = y /\ MonthFromTime t = m /\ DateFromTime t = d.
Proof.
  intros Hm Hd t.
  assert (Hday : Day t = MakeDay y m d).
  { unfold t, MakeDate. rewrite Z.add_0_r. unfold Day, msPerDay. apply Z.div_mul. lia. }
  assert (Hym : y + m / 12 = y) by (rewrite Z.div_small; lia).
  assert (Hmn : m mod 12 = m) by (apply Z.mod_small; lia).
  assert (Hy : YearFromTime t = y).
  { unfold YearFromTime. rewrite Hday. apply YearFromDay_unique.
    unfold MakeDay. rewrite Hym, Hmn, DayFromYear_next. unfold DaysInYear.
    assert (Hc : m = 0 \/ m = 1 \/ m = 2 \/ m = 3 \/ m = 4 \/ m = 5 \/ m = 6 \/ m = 7
                 \/ m = 8 \/ m = 9 \/ m = 10 \/ m = 11) by lia.
    destruct (is_leap y); repeat destruct Hc as [Hc|Hc]; subst m; simpl in *; lia. }
  split; [exact Hy|].
  unfold MonthFromTime, DateFromTime, MonthFromTime, InLeapYear, DayWithinYear.
  rewrite Hy, Hday. unfold MakeDay. rewrite Hym, Hmn.
  assert (Hc : m = 0 \/ m = 1 \/ m = 2 \/ m = 3 \/ m = 4 \/ m = 5 \/ m = 6 \/ m = 7
               \/ m = 8 \/ m = 9 \/ m = 10 \/ m = 11) by lia.
  destruct (is_leap y); repeat destruct Hc as [Hc|Hc]; subst m; simpl in Hd;
    cbn [days_before_month];
    repeat match goal with
           | |- context [?a <? ?b] => destruct (Z.ltb_spec a b); try lia
           end; split; lia.
Qed.

Lemma Day_of_days d : Day (d * msPerDay) = d.
Proof. unfold Day, msPerDay. apply Z.div_mul. lia. Qed.

End Calendar.

(** ** Serial dates of the import *)

Section SerialDates.
Import EcmaDate.

Lemma append_cons x (a b : string) : String x a +:+ b = String x (a +:+ b).
Proof. reflexivity. Qed.

Lemma append_empty (b : string) : "" +:+ b = b.
Proof. reflexivity. Qed.

Lemma append_assoc (a b c : string) : (a +:+ b) +:+ c = a +:+ (b +:+ c).
Proof.
  induction a as [|x a IH]; [done|].
  rewrite !append_cons. f_equal. exact IH.
Qed.

Lemma split_head_app c a b :
  Spec.free_of c a = true -> Js.split_head c (a +:+ String c b) = a.
Proof.
  induction a as [|x a IH]; intros H.
  - rewrite append_empty. simpl. by rewrite Ascii.eqb_refl.
  - rewrite append_cons. simpl in *.
    apply andb_prop in H as [Hx Ha].
    destruct (Ascii.eqb x c); [done|]. by rewrite IH.
Qed.

Lemma free_of_app c a b :
  Spec.free_of c (a +:+ b) = Spec.free_of c a && Spec.free_of c b.
Proof.
  induction a as [|x a IH]; [done|].
  rewrite append_cons. simpl. by rewrite IH, andb_assoc.
Qed.

Lemma digit_not_T n : Ascii.eqb (digit n) "T" = false.
Proof.
  unfold digit.
  assert (H : 0 <= n mod 10 < 10) by (apply Z.mod_pos_bound; lia).
  assert (Hc : n mod 10 = 0 \/ n mod 10 = 1 \/ n mod 10 = 2 \/ n mod 10 = 3
               \/ n mod 10 = 4 \/ n mod 10 = 5 \/ n mod 10 = 6 \/ n mod 10 = 7
               \/ n mod 10 = 8 \/ n mod 10 = 9) by lia.
  repeat destruct Hc as [Hc|Hc]; rewrite Hc; reflexivity.
Qed.

Lemma pad_free_of_T k : forall n, Spec.free_of "T" (pad k n) = true.
Proof.
  induction k as [|k IH]; intros n; simpl; [done|].
  rewrite free_of_app, IH. simpl. by rewrite digit_not_T.
Qed.

Lemma iso_year_free_of_T y : Spec.free_of "T" (iso_year y) = true.
Proof.
  unfold iso_year.
  destruct ((0 <=? y) && (y <=? 9999)); [apply pad_free_of_T|].
  destruct (y <? 0); rewrite free_of_app, pad_free_of_T; reflexivity.
Qed.

(** The text before the [T] of the ISO format is the date of the
    UTC day of the time value. *)
Lemma iso_string_date_part t :
  Js.split_head "T" (iso_string t) = iso_date_of_day (Day t).
Proof.
  unfold iso_string, iso_date_of_day.
  unfold MonthFromTime, DateFromTime, MonthFromTime, InLeapYear, DayWithinYear,
    YearFromTime.
  rewrite Day_of_days.
  set (y := iso_year _). set (m := pad 2 _). set (d := pad 2 _).
  set (rest := pad 2 _ +:+ _).
  replace (y +:+ "-" +:+ m +:+ "-" +:+ d +:+ "T" +:+ rest)
    with ((y +:+ "-" +:+ m +:+ "-" +:+ d) +:+ String "T" rest).
  - apply split_head_app.
    unfold y, m, d.
    rewrite !free_of_app, iso_year_free_of_T, !pad_free_of_T. reflexivity.
  - rewrite !append_assoc. reflexivity.
Qed.

Lemma TimeClip_in_range t :
  - 8640000000000000 <= t <= 8640000000000000 -> TimeClip t = Some t.
Proof.
  intros H. unfold TimeClip. destruct (Z.leb_spec (Z.abs t) 8640000000000000); [done|lia].
Qed.

Lemma excel_date_value tza v :
  - msPerDay < tza < msPerDay ->
  -99974430 <= v <= 100025568 ->
  Settings.excel_date tza v
  = Some ((Spec.epoch_day + (v - 2)) * msPerDay - tza).
Proof.
  intros Htz Hv. unfold Settings.excel_date, Date_ymd, Date_of_number.
  change (MakeDate (MakeDay _ 0 1) 0) with (-2208988800000).
  change Spec.epoch_day with (-25567).
  unfold msPerDay in *.
  rewrite TimeClip_in_range by lia. simpl.
  rewrite TimeClip_in_range by lia. f_equal. lia.
Qed.

(** At or west of Greenwich the stored text is the date [v - 2]
    days after 1900-01-01. *)
Lemma serial_date_west tza v :
  - msPerDay < tza <= 0 ->
  -99974430 <= v <= 100025568 ->
  Settings.normalize_value tza "date" (VNum v) = Ok (VStr (Spec.serial_date v)).
Proof.
  intros Htz Hv. unfold Settings.normalize_value. simpl String.eqb. cbv iota.
  rewrite excel_date_value by lia.
  unfold toISOString, mbind, result_bind.
  rewrite iso_string_date_part. unfold Spec.serial_date.
  do 3 f_equal. unfold Day, msPerDay in *. Z.div_mod_to_equations. lia.
Qed.

(** East of Greenwich it is the date of the day before. *)
Lemma serial_date_east tza v :
  0 < tza < msPerDay ->
  -99974430 <= v <= 100025568 ->
  Settings.normalize_value tza "date" (VNum v) = Ok (VStr (Spec.serial_date (v - 1))).
Proof.
  intros Htz Hv. unfold Settings.normalize_value. simpl String.eqb. cbv iota.
  rewrite excel_date_value by lia.
  unfold toISOString, mbind, result_bind.
  rewrite iso_string_date_part. unfold Spec.serial_date.
  do 3 f_equal. unfold Day, msPerDay in *. Z.div_mod_to_equations. lia.
Qed.

(** A serial too large for a [Date] makes [toISOString] throw. *)
Lemma serial_date_out_of_range tza v :
  - msPerDay < tza < msPerDay ->
  100025570 < v ->
  Settings.normalize_value tza "date" (VNum v)
  = Throw {| message := "Invalid time value" |}.
Proof.
  intros Htz Hv. unfold Settings.normalize_value. simpl String.eqb. cbv iota.
  unfold Settings.excel_date, Date_ymd, Date_of_number.
  change (MakeDate (MakeDay _ 0 1) 0) with (-2208988800000).
  unfold msPerDay in *.
  rewrite TimeClip_in_range by lia. simpl.
  unfold TimeClip.
  destruct (Z.leb_spec (Z.abs (-2208988800000 - tza + (v - 2) * 24 * 60 * 60 * 1000))
              8640000000000000); [lia|reflexivity].
Qed.

(** A date cell that is not a number is stored as it is, and so is
    every cell of another column. *)
Lemma normalize_value_text tza key t :
  Settings.normalize_value tza key (VStr t) = Ok (VStr t).
Proof. reflexivity. Qed.

Lemma normalize_value_bool tza key b :
  Settings.normalize_value tza key (VBool b) = Ok (VBool b).
Proof. reflexivity. Qed.

Lemma normalize_value_other_column tza key v :
  key <> "date" -> Settings.normalize_value tza key v = Ok v.
Proof.
  intros H. destruct v; simpl; try reflexivity.
  destruct (String.eqb_spec key "date"); [done|reflexivity].
Qed.

End SerialDates.

(** ** The import pipeline *)

Section ImportPipeline.

(** C1, at the input where the code departs from it: in a browser
    whose time zone is eight hours east of Greenwich the serial
    45292 is stored as 2023-12-31, while the date 45292 - 2 days
    after 1900-01-01 is 2024-01-01. *)
Theorem serial_45292_east_of_greenwich :
  Settings.normalizeRow (8 * EcmaDate.msPerHour)
    [("first_name", VStr "A"); ("last_name", VStr "B"); ("case_type", VStr "Theft");
     ("date", VNum 45292); ("blotter_entry", VStr "x")]
  = Ok (<["first_name" := VStr "A"]> (<["last_name" := VStr "B"]>
         (<["case_type" := VStr "Theft"]> (<["date" := VStr "2023-12-31"]>
           (<["blotter_entry" := VStr "x"]> ∅)))))
  /\ Spec.serial_date 45292 = "2024-01-01".
Proof. split; compute_done. Qed.

(** In a browser on Greenwich time the same row gets the date of
    the specification. *)
Example serial_45292_at_greenwich :
  Settings.normalize_value 0 "date" (VNum 45292) = Ok (VStr "2024-01-01").
Proof. compute_done. Qed.

Lemma filter_throwing_total {A} (f : A -> result bool) (p : A -> bool) l :
  (forall x, f x = Ok (p x)) ->
  filter_throwing f l = Ok (List.filter p l).
Proof.
  intros H. induction l as [|x l IH]; simpl; [done|].
  rewrite H, IH. simpl. reflexivity.
Qed.

Lemma missingColumns_first_row (first : obj) :
  Settings.missingColumns (Some first)
  = Ok (List.filter (fun col => bool_decide (first !! col = None)) Settings.requiredColumns).
Proof.
  unfold Settings.missingColumns. apply filter_throwing_total.
  intros col. simpl. unfold mbind, result_bind. f_equal.
  destruct (first !! col); reflexivity.
Qed.

Lemma js_set_is_Some k v (o : obj) col :
  is_Some (js_set k v o !! col)
  <-> (k = col /\ col <> "__proto__") \/ is_Some (o !! col).
Proof.
  unfold js_set. destruct (String.eqb_spec k "__proto__") as [->|Hk].
  - split; [by right|]. intros [[<- H]|H]; done.
  - rewrite lookup_insert_is_Some. split.
    + intros [<-|[_ H]]; [left; done|by right].
    + intros [[<- _]|H]; [by left|].
      destruct (decide (k = col)); [by left|right; done].
Qed.

(** The keys of a row under normalization: those it had and the
    header names of the row, trimmed and in lower case, the name
    [__proto__] apart. *)
Lemma normalize_keys_columns tza (r : row) : forall (o o' : obj),
  Settings.normalize_keys tza o r = Ok o' ->
  forall col, is_Some (o' !! col)
    <-> is_Some (o !! col)
        \/ (col <> "__proto__"
            /\ exists k v, (k, v) ∈ r /\ col = Js.toLowerCase (Js.trim k)).
Proof.
  induction r as [|[k v] r IH]; intros o o' H col; simpl in H.
  - injection H as <-. split; [auto|].
    intros [Hc|(_ & k & v & Hin & _)]; [done|]. by apply elem_of_nil in Hin.
  - unfold Settings.normalize_key in H. simpl in H.
    destruct (Settings.normalize_value tza (Js.toLowerCase (Js.trim k)) v) as [v'|e];
      simpl in H; [|discriminate].
    rewrite (IH _ _ H col). rewrite js_set_is_Some.
    split.
    + intros [[[Heq Hp]|Ho]|(Hp & k' & v'' & Hin & Hc)].
      * right. split; [done|]. exists k, v. split; [apply list_elem_of_here|done].
      * by left.
      * right. split; [done|]. exists k', v''. split; [by apply list_elem_of_further|done].
    + intros [Ho|(Hp & k' & v'' & Hin & Hc)].
      * left. by right.
      * apply elem_of_cons in Hin as [Heq|Hin].
        -- injection Heq as -> ->. left. by left.
        -- right. split; [done|]. exists k', v''. done.
Qed.

(** The keys of a normalized row are the header names of the row,
    trimmed and in lower case; a header that becomes [__proto__]
    leaves no key. *)
Lemma normalizeRow_columns tza (r : row) (o : obj) :
  Settings.normalizeRow tza r = Ok o ->
  forall col, is_Some (o !! col)
    <-> col <> "__proto__"
        /\ exists k v, (k, v) ∈ r /\ col = Js.toLowerCase (Js.trim k).
Proof.
  intros H col. unfold Settings.normalizeRow in H.
  rewrite (normalize_keys_columns _ _ _ _ H col).
  rewrite lookup_empty. split; [|by right].
  intros [[x Hx]|Hr]; [discriminate|done].
Qed.

Lemma normalizedData_cons tza r0 rs nd :
  Settings.normalizedData tza (r0 :: rs) = Ok nd ->
  exists first rest,
    nd = first :: rest /\ Settings.normalizeRow tza r0 = Ok first
    /\ Settings.normalizedData tza rs = Ok rest.
Proof.
  unfold Settings.normalizedData. simpl. intros H.
  destruct (Settings.normalizeRow tza r0) as [first|e]; simpl in H; [|discriminate].
  destruct (map_throwing (Settings.normalizeRow tza) rs) as [rest|e]; simpl in H;
    [|discriminate].
  injection H as <-. by exists first, rest.
Qed.

Lemma normalize_value_total tza key v :
  - EcmaDate.msPerDay < tza < EcmaDate.msPerDay ->
  (forall n, v = VNum n -> key = "date" -> Spec.serial_in_range n) ->
  exists v', Settings.normalize_value tza key v = Ok v'.
Proof.
  intros Htz Hv. destruct v as [n|t|b]; [|by eexists|by eexists].
  destruct (decide (key = "date")) as [->|Hk].
  - specialize (Hv n eq_refl eq_refl). unfold Spec.serial_in_range in Hv.
    destruct (Z.le_gt_cases tza 0).
    + rewrite serial_date_west by lia. by eexists.
    + rewrite serial_date_east by lia. by eexists.
  - rewrite normalize_value_other_column by done. by eexists.
Qed.

Lemma normalize_keys_total tza (r : row) : forall o : obj,
  - EcmaDate.msPerDay < tza < EcmaDate.msPerDay ->
  Spec.dates_in_range r ->
  exists o', Settings.normalize_keys tza o r = Ok o'.
Proof.
  induction r as [|[k v] r IH]; intros o Htz Hr; simpl; [by eexists|].
  unfold Settings.normalize_key. simpl.
  destruct (normalize_value_total tza (Js.toLowerCase (Js.trim k)) v Htz) as [v' ->].
  - intros n -> Hk. apply (Hr k n); [apply list_elem_of_here|done].
  - simpl. apply IH; [done|].
    intros k' n Hin. apply Hr. by apply list_elem_of_further.
Qed.

(** The rows of a sheet normalize when its serial dates are dates
    that a [Date] can hold: the import gets as far as its check. *)
Lemma normalizedData_total tza jsonData :
  - EcmaDate.msPerDay < tza < EcmaDate.msPerDay ->
  Forall Spec.dates_in_range jsonData ->
  exists nd, Settings.normalizedData tza jsonData = Ok nd /\ length nd = length jsonData.
Proof.
  intros Htz H. unfold Settings.normalizedData.
  induction H as [|r rs Hr Hrs IH]; [by exists []|].
  destruct (normalize_keys_total tza r ∅ Htz Hr) as [o Ho].
  destruct IH as (nd & Hnd & Hlen).
  exists (o :: nd). cbn [map_throwing length].
  change (Settings.normalizeRow tza r) with (Settings.normalize_keys tza ∅ r).
  rewrite Ho, Hnd, Hlen. done.
Qed.

(** What [onload] does on a sheet whose rows normalize. *)
Lemma onload_normalized tza jsonData first rest reply s w :
  Settings.normalizedData tza jsonData = Ok (first :: rest) ->
  Settings.onload tza jsonData reply s w
  = match List.filter (fun col => bool_decide (first !! col = None))
            Settings.requiredColumns with
    | [] =>
        match reply with
        | None =>
            (Ok tt, Settings.with_importing false s,
             visit "/" false
               (notify (ToastSuccess ("Successfully imported "
                          +:+ show_Z (Z.of_nat (length (first :: rest))) +:+ " entries"))
                  (served (Insert (first :: rest)) w)))
        | Some e =>
            (Ok tt, Settings.with_importing false s,
             notify (ToastError ("Error processing file: " +:+ message e))
               (record (Insert (first :: rest)) w))
        end
    | c :: cs =>
        (Ok tt, Settings.with_importing false s,
         notify (ToastError ("Missing columns: " +:+ Js.join ", " (c :: cs))) w)
    end.
Proof.
  intros Hnd.
  unfold Settings.onload, try_finally, try_catch, lift.
  rewrite Hnd. unfold mbind, M_bind. cbv beta iota.
  change (head (first :: rest)) with (Some first).
  rewrite missingColumns_first_row.
  destruct (List.filter _ Settings.requiredColumns) as [|c cs].
  - change (0 <? Z.of_nat (length [])) with false. cbv iota.
    destruct reply as [e|]; reflexivity.
  - replace (0 <? Z.of_nat (length (c :: cs))) with true
      by (symmetry; apply Z.ltb_lt; simpl length; lia).
    reflexivity.
Qed.

Lemma served_insert rows w :
  sent (served (Insert rows) w) = sent w ++ [Insert rows]
  /\ table (served (Insert rows) w) = table w ++ (Store.assign_ids (next_id w) rows).1
  /\ toasts (served (Insert rows) w) = toasts w
  /\ visited (served (Insert rows) w) = visited w.
Proof.
  unfold served. simpl.
  destruct (Store.assign_ids (next_id w) rows) as [l n]. simpl. done.
Qed.

(** The check and its two outcomes, for a sheet whose rows normalize. *)
Lemma import_checks_normalized_rows tza r0 rs nd reply s w :
  Settings.normalizedData tza (r0 :: rs) = Ok nd ->
  exists first rest,
    nd = first :: rest
    /\ (forall col, is_Some (first !! col)
          <-> col <> "__proto__"
              /\ exists k v, (k, v) ∈ r0 /\ col = Js.toLowerCase (Js.trim k))
    /\ exists missing,
         (forall col, col ∈ missing
            <-> col ∈ Settings.requiredColumns /\ first !! col = None)
         /\ (missing <> [] ->
             Settings.onload tza (r0 :: rs) reply s w
             = (Ok tt, Settings.with_importing false s,
                notify (ToastError ("Missing columns: " +:+ Js.join ", " missing)) w))
         /\ (missing = [] ->
             exists w',
               Settings.onload tza (r0 :: rs) reply s w
               = (Ok tt, Settings.with_importing false s, w')
               /\ sent w' = sent w ++ [Insert nd]
               /\ table w'
                  = match reply with
                    | None => table w ++ (Store.assign_ids (next_id w) nd).1
                    | Some _ => table w
                    end).
Proof.
  intros Hnd.
  destruct (normalizedData_cons _ _ _ _ Hnd) as (first & rest & -> & Hfirst & Hrest).
  exists first, rest. split; [done|]. split; [exact (normalizeRow_columns _ _ _ Hfirst)|].
  exists (List.filter (fun col => bool_decide (first !! col = None))
            Settings.requiredColumns).
  rewrite (onload_normalized _ _ _ _ reply s w Hnd).
  split; [|split].
  - intros col. rewrite list_elem_of_In, filter_In, <- list_elem_of_In.
    by rewrite bool_decide_eq_true.
  - destruct (List.filter _ Settings.requiredColumns); [done|reflexivity].
  - intros ->. destruct reply as [e|].
    + eexists. split; [reflexivity|]. done.
    + eexists. split; [reflexivity|].
      pose proof (served_insert (first :: rest) w) as (Hs & Ht & _). done.
Qed.




(** What the import does on that sheet: one error notification,
    no request, the table as before. *)
Example import_with_bad_later_date :
  Settings.onload 0
    [[("blotter_entry", VStr "x"); ("first_name", VStr "A");
      ("last_name", VStr "B"); ("case_type", VStr "Theft");
      ("date", VStr "2024-01-01")];
     [("date", VNum 1704067200)]] None
    {| Settings.showDeleteDialog := false; Settings.deleteConfirmation := "";
       Settings.importing := true |}
    {| table := []; next_id := 1; sent := []; toasts := []; visited := [] |}
  = (Ok tt,
     {| Settings.showDeleteDialog := false; Settings.deleteConfirmation := "";
        Settings.importing := false |},
     {| table := []; next_id := 1; sent := [];
        toasts := [ToastError "Error processing file: Invalid time value"];
        visited := [] |}).
Proof. compute_done. Qed.

(** The missing-columns error of the specification's example: a
    sheet without [case_type]. *)
Example import_without_case_type s w reply :
  Settings.onload 0
    [[("first_name", VStr "A"); ("last_name", VStr "B"); ("date", VNum 45292);
      ("blotter_entry", VStr "x")]] reply s w
  = (Ok tt, Settings.with_importing false s,
     notify (ToastError "Missing columns: case_type") w).
Proof.
  rewrite (onload_normalized 0 _
    (<["first_name" := VStr "A"]> (<["last_name" := VStr "B"]>
       (<["date" := VStr "2024-01-01"]> (<["blotter_entry" := VStr "x"]> ∅)))) []);
    [|compute_done].
  reflexivity.
Qed.

(** C10. A sheet without data rows: there is no first row, the
    check of the required columns throws instead of listing missing
    columns, and the handler ends with one file-processing error,
    sends no request, leaves the table as it is, does not navigate
    and resets [importing]. *)
Theorem import_of_empty_sheet tza reply s w :
  Settings.normalizedData tza [] = Ok []
  /\ Settings.missingColumns (head []) = Throw {|
       message := "Cannot use 'in' operator to search for 'blotter_entry' in undefined" |}
  /\ Settings.onload tza [] reply s w
     = (Ok tt, Settings.with_importing false s,
        notify (ToastError ("Error processing file: "
                  +:+ "Cannot use 'in' operator to search for 'blotter_entry' in undefined"))
          w)
  /\ sent (Settings.onload tza [] reply s w).2 = sent w
  /\ table (Settings.onload tza [] reply s w).2 = table w
  /\ visited (Settings.onload tza [] reply s w).2 = visited w
  /\ Settings.handleFileUpload tza (Some []) reply s w = Settings.onload tza [] reply s w.
Proof.
  split; [reflexivity|]. split; [reflexivity|].
  assert (H : Settings.onload tza [] reply s w
     = (Ok tt, Settings.with_importing false s,
        notify (ToastError ("Error processing file: "
                  +:+ "Cannot use 'in' operator to search for 'blotter_entry' in undefined"))
          w)) by reflexivity.
  rewrite H. repeat split.
Qed.

End ImportPipeline.

(** ** Deleting and updating entries *)

Section Entries.

Lemma Forall2_map_self {A} (R : A -> A -> Prop) (f : A -> A) (l : list A) :
  (forall x, R x (f x)) -> Forall2 R l (map f l).
Proof. intros H. induction l; simpl; constructor; auto. Qed.

Lemma table_visit path replace w : table (visit path replace w) = table w.
Proof. reflexivity. Qed.

Lemma table_notify t w : table (notify t w) = table w.
Proof. reflexivity. Qed.

(** The table after a delete by key: the rows with another key, in
    their order. *)
Lemma handleDelete_served id s w :
  EntryDetail.handleDelete id None s w
  = (Ok tt, s,
     visit "/" false (notify (ToastSuccess "Entry deleted successfully")
                        (served (Delete [Eq "id" (VNum id)]) w)))
  /\ table (served (Delete [Eq "id" (VNum id)]) w)
     = List.filter (fun r => negb (bool_decide (r !! "id" = Some (VNum id)))) (table w).
Proof.
  split; [reflexivity|].
  unfold served. simpl. apply filter_ext. intros r.
  by rewrite andb_true_r.
Qed.

(** A refused delete changes nothing in the table. *)
Lemma handleDelete_refused id e s w :
  EntryDetail.handleDelete id (Some e) s w
  = (Ok tt, s,
     notify (ToastError ("Error deleting entry: " +:+ message e))
       (record (Delete [Eq "id" (VNum id)]) w)).
Proof. reflexivity. Qed.

(** With keys that are pairwise different, a delete by a key that
    is in the table takes out one row. *)
Lemma delete_unique_key (k : option val) (l : list obj) :
  NoDup (map (fun r : obj => r !! "id") l) ->
  (exists r, r ∈ l /\ r !! "id" = k) ->
  S (length (List.filter (fun r => negb (bool_decide (r !! "id" = k))) l)) = length l.
Proof.
  induction l as [|x l IH]; simpl; intros Hnd [r [Hin Hr]].
  - by apply elem_of_nil in Hin.
  - apply NoDup_cons in Hnd as [Hx Hnd].
    destruct (decide (x !! "id" = k)) as [Hk|Hk].
    + rewrite bool_decide_true by done. simpl. f_equal.
      assert (Hall : forall y, y ∈ l -> y !! "id" <> k).
      { intros y Hy Heq. apply Hx. rewrite Hk, <- Heq.
        apply list_elem_of_In, in_map, list_elem_of_In. exact Hy. }
      clear -Hall. induction l as [|y l IH]; simpl; [done|].
      rewrite bool_decide_false by (apply Hall; apply list_elem_of_here).
      simpl. f_equal. apply IH. intros z Hz. apply Hall. by apply list_elem_of_further.
    + rewrite bool_decide_false by done. simpl. f_equal. apply IH; [done|].
      apply elem_of_cons in Hin as [->|Hin]; [done|]. by exists r.
Qed.

(** The rows that delete-all keeps. *)
Lemma deleteAll_served s w :
  Settings.deleteConfirmation s = "DELETE" ->
  Settings.handleDeleteAll None s w
  = (Ok tt,
     Settings.with_deleteConfirmation "" (Settings.with_showDeleteDialog false s),
     visit "/" false (notify (ToastSuccess "All entries deleted successfully")
                        (served (Delete [Neq "id" (VNum 0)]) w)))
  /\ table (served (Delete [Neq "id" (VNum 0)]) w)
     = List.filter (fun r => bool_decide (r !! "id" = None \/ r !! "id" = Some (VNum 0)))
         (table w).
Proof.
  intros H. unfold Settings.handleDeleteAll. rewrite H. split; [reflexivity|].
  unfold served. simpl. apply filter_ext. intros r.
  rewrite andb_true_r. destruct (r !! "id") as [v|]; simpl.
  - rewrite negb_involutive. apply bool_decide_ext.
    split; [intros ->; by right|intros [Hn|[= Hv]]; done].
  - reflexivity.
Qed.

(** C9. Unless the confirmation text is [DELETE], delete-all shows
    an error and does nothing else: no request, the same table, the
    same state. The button of the dialog is disabled in the same
    case. *)
Theorem deleteAll_needs_confirmation reply s w :
  Settings.deleteConfirmation s <> "DELETE" ->
  Settings.handleDeleteAll reply s w
  = (Ok tt, s, notify (ToastError "Please type DELETE to confirm") w)
  /\ sent (Settings.handleDeleteAll reply s w).2 = sent w
  /\ table (Settings.handleDeleteAll reply s w).2 = table w
  /\ Settings.deleteAll_disabled s = true.
Proof.
  intros H. unfold Settings.handleDeleteAll, Settings.deleteAll_disabled.
  destruct (String.eqb_spec (Settings.deleteConfirmation s) "DELETE"); [done|].
  simpl. done.
Qed.

Lemma deleteAll_needs_confirmation_witness :
  let s := {| Settings.showDeleteDialog := true; Settings.deleteConfirmation := "delete";
              Settings.importing := false |} in
  let w := {| table := [<["id" := VNum 7]> ∅]; next_id := 8; sent := []; toasts := [];
              visited := [] |} in
  Settings.handleDeleteAll None s w
  = (Ok tt, s, notify (ToastError "Please type DELETE to confirm") w).
Proof.
  intros s w.
  apply (deleteAll_needs_confirmation None s w). simpl. discriminate.
Defined.

(** Delete-all does not empty every table: a row with the key 0
    outlives it. *)
Lemma deleteAll_keeps_key_zero :
  ~ (forall s w,
       Settings.deleteConfirmation s = "DELETE" ->
       table (Settings.handleDeleteAll None s w).2 = []).
Proof.
  intros H.
  specialize (H {| Settings.showDeleteDialog := true; Settings.deleteConfirmation := "DELETE";
                   Settings.importing := false |}
                {| table := [<["id" := VNum 0]> (<["first_name" := VStr "A"]> ∅)];
                   next_id := 1; sent := []; toasts := []; visited := [] |}
                eq_refl).
  assert (Hkept :
    table (Settings.handleDeleteAll None
             {| Settings.showDeleteDialog := true; Settings.deleteConfirmation := "DELETE";
                Settings.importing := false |}
             {| table := [<["id" := VNum 0]> (<["first_name" := VStr "A"]> ∅)];
                next_id := 1; sent := []; toasts := []; visited := [] |}).2
    = [<["id" := VNum 0]> (<["first_name" := VStr "A"]> ∅)]) by compute_done.
  rewrite Hkept in H. discriminate H.
Qed.

(** C3, at the input where the code departs from it: the table
    holds a row with the key 0 and a row with the key 1, and a
    confirmed delete-all is carried out. The request deletes where
    [id <> 0]: the row with the key 1 is removed, the row with the
    key 0 stays in the table, and the notification says that all
    entries were deleted. *)
Theorem deleteAll_leaves_key_zero :
  Settings.handleDeleteAll None
    {| Settings.showDeleteDialog := true; Settings.deleteConfirmation := "DELETE";
       Settings.importing := false |}
    {| table := [<["id" := VNum 0]> (<["first_name" := VStr "A"]> ∅);
                 <["id" := VNum 1]> (<["first_name" := VStr "B"]> ∅)];
       next_id := 2; sent := []; toasts := []; visited := [] |}
  = (Ok tt,
     {| Settings.showDeleteDialog := false; Settings.deleteConfirmation := "";
        Settings.importing := false |},
     {| table := [<["id" := VNum 0]> (<["first_name" := VStr "A"]> ∅)];
        next_id := 2; sent := [Delete [Neq "id" (VNum 0)]];
        toasts := [ToastSuccess "All entries deleted successfully"];
        visited := [("/", false)] |}).
Proof. compute_done. Qed.

(** What the two deletes do to every table. A delete by key that
    the remote side carries out removes the rows with that key and
    keeps every other row; with keys that are pairwise different
    that is one row. Delete-all removes every row whose key is not
    0; when every row has a key other than 0, the table is empty
    afterwards. *)
Lemma delete_by_id_and_delete_all id s s' w :
  Settings.deleteConfirmation s' = "DELETE" ->
  (forall r, r ∈ table (EntryDetail.handleDelete id None s w).2
     <-> r ∈ table w /\ r !! "id" <> Some (VNum id))
  /\ (NoDup (map (fun r : obj => r !! "id") (table w)) ->
      (exists r, r ∈ table w /\ r !! "id" = Some (VNum id)) ->
      S (length (table (EntryDetail.handleDelete id None s w).2)) = length (table w))
  /\ (forall r, r ∈ table (Settings.handleDeleteAll None s' w).2
        <-> r ∈ table w /\ (r !! "id" = None \/ r !! "id" = Some (VNum 0)))
  /\ ((forall r, r ∈ table w -> exists v, r !! "id" = Some v /\ v <> VNum 0) ->
      table (Settings.handleDeleteAll None s' w).2 = []).
Proof.
  intros Hc.
  destruct (handleDelete_served id s w) as [-> Hd].
  destruct (deleteAll_served s' w Hc) as [-> Ha].
  cbn [snd]. rewrite !table_visit, !table_notify, Hd, Ha. split; [|split; [|split]].
  - intros r. rewrite list_elem_of_In, filter_In, <- list_elem_of_In.
    rewrite negb_true_iff, bool_decide_eq_false. done.
  - apply delete_unique_key.
  - intros r. rewrite list_elem_of_In, filter_In, <- list_elem_of_In.
    rewrite bool_decide_eq_true. done.
  - generalize (table w). intros l Hall.
    induction l as [|r l IH]; simpl; [done|].
    destruct (Hall r (list_elem_of_here _ _)) as (v & Hv & Hne).
    rewrite bool_decide_false by (rewrite Hv; intros [Hn|[= Hz]]; done).
    apply IH. intros r' Hr'. apply Hall. by apply list_elem_of_further.
Qed.

Example delete_all_of_keys_1_and_2 :
  let s := {| EntryDetail.entry := None; EntryDetail.formData := ∅;
              EntryDetail.isEditing := false |} in
  let s' := {| Settings.showDeleteDialog := true; Settings.deleteConfirmation := "DELETE";
               Settings.importing := false |} in
  let w := {| table := [<["id" := VNum 1]> ∅; <["id" := VNum 2]> ∅]; next_id := 3;
              sent := []; toasts := []; visited := [] |} in
  table (Settings.handleDeleteAll None s' w).2 = [].
Proof.
  intros s s' w.
  destruct (delete_by_id_and_delete_all 2 s s' w eq_refl) as (_ & _ & _ & H).
  apply H. intros r Hr.
  apply elem_of_cons in Hr as [->|Hr]; [by exists (VNum 1)|].
  apply elem_of_cons in Hr as [->|Hr]; [by exists (VNum 2)|].
  by apply elem_of_nil in Hr.
Defined.

(** The payload of an update: the form data without its [id] and
    its [created_at]. *)
Lemma updateData_columns (formData : obj) :
  EntryDetail.updateData formData !! "id" = None
  /\ EntryDetail.updateData formData !! "created_at" = None
  /\ forall k, k <> "id" -> k <> "created_at" ->
       EntryDetail.updateData formData !! k = formData !! k.
Proof.
  unfold EntryDetail.updateData. split; [|split].
  - rewrite lookup_delete_ne by done. apply lookup_delete_eq.
  - apply lookup_delete_eq.
  - intros k H1 H2. by rewrite !lookup_delete_ne.
Qed.

(** A payload with an [id] would change the key of the row: the
    table does not protect the column. *)
Example patch_can_change_id :
  Store.patch (<["id" := VNum 9]> ∅) (<["id" := VNum 1]> ∅) !! "id" = Some (VNum 9).
Proof. reflexivity. Qed.

Lemma handleUpdate_served id s w :
  EntryDetail.handleUpdate id None s w
  = (Ok tt,
     {| EntryDetail.entry := Some (EntryDetail.formData s);
        EntryDetail.formData := EntryDetail.formData s;
        EntryDetail.isEditing := false |},
     notify (ToastSuccess "Entry updated successfully")
       (served (Update (EntryDetail.updateData (EntryDetail.formData s))
                  [Eq "id" (VNum id)]) w))
  /\ table (served (Update (EntryDetail.updateData (EntryDetail.formData s))
                      [Eq "id" (VNum id)]) w)
     = map (fun r => if bool_decide (r !! "id" = Some (VNum id))
                     then Store.patch (EntryDetail.updateData (EntryDetail.formData s)) r
                     else r) (table w).
Proof.
  split; [reflexivity|].
  unfold served. simpl. apply map_ext. intros r. by rewrite andb_true_r.
Qed.

Lemma handleUpdate_refused id e s w :
  EntryDetail.handleUpdate id (Some e) s w
  = (Ok tt, s,
     notify (ToastError ("Error updating entry: " +:+ message e))
       (record (Update (EntryDetail.updateData (EntryDetail.formData s))
                  [Eq "id" (VNum id)]) w)).
Proof. reflexivity. Qed.

(** C5. The update request carries the form data without [id] and
    [created_at]. Row by row, the table after the update has the
    [id] and the [created_at] it had before; a row with the key of
    the page has every other submitted field at its submitted
    value, a row with another key is unchanged. *)
Theorem update_keeps_id_and_created_at id reply s w :
  let payload := EntryDetail.updateData (EntryDetail.formData s) in
  let w' := (EntryDetail.handleUpdate id reply s w).2 in
  sent w' = sent w ++ [Update payload [Eq "id" (VNum id)]]
  /\ payload !! "id" = None
  /\ payload !! "created_at" = None
  /\ Forall2
       (fun r r' : obj =>
          r' !! "id" = r !! "id"
          /\ r' !! "created_at" = r !! "created_at"
          /\ (reply = None -> r !! "id" = Some (VNum id) ->
              forall k v, k <> "id" -> k <> "created_at" ->
                EntryDetail.formData s !! k = Some v -> r' !! k = Some v)
          /\ (r !! "id" <> Some (VNum id) -> r' = r))
       (table w) (table w').
Proof.
  intros payload w'.
  destruct (updateData_columns (EntryDetail.formData s)) as (Hid & Hcr & Hother).
  fold payload in Hid, Hcr, Hother.
  split; [|split; [exact Hid|split; [exact Hcr|]]].
  - subst w'. destruct reply as [e|]; reflexivity.
  - subst w'. destruct reply as [e|].
    + rewrite handleUpdate_refused. cbn [snd]. rewrite table_notify.
      change (table (record _ w)) with (table w).
      replace (table w) with (map (fun r : obj => r) (table w)) at 2 by apply map_id.
      apply Forall2_map_self. intros r. repeat split; try done.
    + destruct (handleUpdate_served id s w) as [-> Ht].
      cbn [snd]. rewrite table_notify, Ht. fold payload.
      apply Forall2_map_self. intros r.
      destruct (decide (r !! "id" = Some (VNum id))) as [Hr|Hr].
      * rewrite bool_decide_true by done. unfold Store.patch.
        split; [by rewrite lookup_union_r|]. split; [by rewrite lookup_union_r|].
        split; [|done].
        intros _ _ k v Hk1 Hk2 Hf.
        apply lookup_union_Some_l. by rewrite Hother.
      * rewrite bool_decide_false by done. repeat split; try done.
Qed.

Lemma update_keeps_id_and_created_at_witness :
  let s := {| EntryDetail.entry := None;
              EntryDetail.formData :=
                <["id" := VNum 99]> (<["created_at" := VStr "2030-01-01"]>
                  (<["first_name" := VStr "Joan"]> ∅));
              EntryDetail.isEditing := true |} in
  let w := {| table := [<["id" := VNum 7]> (<["created_at" := VStr "2024-05-05"]>
                          (<["first_name" := VStr "John"]> ∅))];
              next_id := 8; sent := []; toasts := []; visited := [] |} in
  exists r', table (EntryDetail.handleUpdate 7 None s w).2 = [r']
             /\ r' !! "id" = Some (VNum 7)
             /\ r' !! "created_at" = Some (VStr "2024-05-05")
             /\ r' !! "first_name" = Some (VStr "Joan").
Proof.
  intros s w.
  destruct (update_keeps_id_and_created_at 7 None s w) as (_ & _ & _ & H).
  apply Forall2_cons_inv_l in H as (r' & l' & (Hid & Hcr & Hset & _) & Hnil & Heq).
  apply Forall2_nil_inv_l in Hnil as ->.
  exists r'. split; [exact Heq|]. split; [exact Hid|]. split; [exact Hcr|].
  apply (Hset eq_refl eq_refl "first_name" (VStr "Joan")); [discriminate|discriminate|].
  reflexivity.
Defined.

End Entries.

(** ** Sign-out *)

Section SignOut.

Local Ltac run_signOut :=
  unfold Auth.signOut, try_finally, try_catch, mbind, M_bind, mret, M_ret;
  cbn -[Auth.session_missing];
  repeat match goal with
         | |- context [Auth.session_missing ?e] => destruct (Auth.session_missing e)
         end;
  reflexivity.

(** The state that every sign-out ends in. *)
Lemma signOut_state global local s w :
  (Auth.signOut global local s w).1
  = (Ok tt, {| Auth.user := None; Auth.session := None; Auth.loading := false |}).
Proof. destruct global as [[e|]|e], local as [[e'|]|e']; run_signOut. Qed.

(** A throw of one of the two calls is swallowed: no notification
    at all, the navigation takes place. *)
Lemma signOut_after_throw e o s w :
  toasts (Auth.signOut (Throw e) o s w).2 = toasts w
  /\ toasts (Auth.signOut o (Throw e) s w).2 = toasts w.
Proof. split; [reflexivity|]. destruct o as [[e'|]|e']; reflexivity. Qed.



End SignOut.

(** ** Search *)

Section Search.

Lemma like_percent p s :
  Store.like (String "%" p) s
  = Store.like p s
    || match s with
       | EmptyString => false
       | String _ s' => Store.like (String "%" p) s'
       end.
Proof. destruct s; reflexivity. Qed.

Lemma like_percent_only s : Store.like "%" s = true.
Proof.
  induction s as [|c s IH]; [reflexivity|].
  rewrite like_percent. rewrite IH. apply orb_true_r.
Qed.

Lemma like_literal c p s :
  Spec.literal c = true ->
  Store.like (String c p) s
  = match s with
    | EmptyString => false
    | String d s' => Ascii.eqb c d && Store.like p s'
    end.
Proof.
  unfold Spec.literal. intros H.
  apply andb_prop in H as [H H4]. apply andb_prop in H as [H H3].
  apply andb_prop in H as [H1 H2].
  apply negb_true_iff in H1, H2, H3, H4.
  simpl. rewrite H1, H2, H3, H4. reflexivity.
Qed.

Lemma like_plain_prefix t : forall s,
  Spec.plain t = true -> Store.like (t +:+ "%") s = Js.startsWith s t.
Proof.
  induction t as [|c t IH]; intros s H.
  - rewrite append_empty, like_percent_only. by destruct s.
  - simpl in H. apply andb_prop in H as [Hc Ht].
    rewrite append_cons, (like_literal _ _ _ Hc).
    destruct s as [|d s]; [reflexivity|]. simpl. by rewrite IH.
Qed.

(** A plain text between two [%] matches the strings it occurs in. *)
Lemma like_plain_includes t s :
  Spec.plain t = true -> Store.like ("%" +:+ t +:+ "%") s = Js.includes s t.
Proof.
  intros H. rewrite append_cons, append_empty.
  induction s as [|c s IH].
  - rewrite like_percent, like_plain_prefix by done. simpl. by destruct t.
  - rewrite like_percent, like_plain_prefix, IH by done. reflexivity.
Qed.

Lemma lower_ascii_idem c : Js.lower_ascii (Js.lower_ascii c) = Js.lower_ascii c.
Proof. destruct c as [[] [] [] [] [] [] [] []]; reflexivity. Qed.

Lemma lower_ascii_literal c : Spec.literal (Js.lower_ascii c) = Spec.literal c.
Proof. destruct c as [[] [] [] [] [] [] [] []]; reflexivity. Qed.

Lemma toLowerCase_idem t : Js.toLowerCase (Js.toLowerCase t) = Js.toLowerCase t.
Proof. induction t as [|c t IH]; simpl; [done|]. by rewrite lower_ascii_idem, IH. Qed.

Lemma toLowerCase_plain t : Spec.plain (Js.toLowerCase t) = Spec.plain t.
Proof. induction t as [|c t IH]; simpl; [done|]. by rewrite lower_ascii_literal, IH. Qed.

Lemma toLowerCase_app a b :
  Js.toLowerCase (a +:+ b) = Js.toLowerCase a +:+ Js.toLowerCase b.
Proof.
  induction a as [|c a IH]; [done|].
  rewrite append_cons. simpl. rewrite IH. by rewrite append_cons.
Qed.

(** The filter that [fetchEntries] builds from a plain search text
    selects the strings in which the text occurs, letter case
    apart. *)
Lemma ilike_plain t s :
  Spec.plain t = true ->
  Store.ilike s ("%" +:+ Js.toLowerCase t +:+ "%") = Spec.ci_substring t s.
Proof.
  intros H. unfold Store.ilike, Spec.ci_substring.
  rewrite !toLowerCase_app, toLowerCase_idem.
  change (Js.toLowerCase "%") with "%".
  apply like_plain_includes. by rewrite toLowerCase_plain.
Qed.

Lemma selects_first_name t (r : obj) :
  Spec.plain t = true -> t <> "" ->
  Store.selects (BlotterList.search_filters t "") r
  = match r !! "first_name" with
    | Some (VStr s) => Spec.ci_substring t s
    | _ => false
    end.
Proof.
  intros Hp Hne. unfold BlotterList.search_filters.
  destruct t as [|c t]; [done|].
  cbn [Js.truthy app Store.selects forallb Store.matches].
  destruct (r !! "first_name") as [[n|s|b]|]; try reflexivity.
  by rewrite ilike_plain, andb_true_r.
Qed.

Lemma selects_last_name t (r : obj) :
  Spec.plain t = true -> t <> "" ->
  Store.selects (BlotterList.search_filters "" t) r
  = match r !! "last_name" with
    | Some (VStr s) => Spec.ci_substring t s
    | _ => false
    end.
Proof.
  intros Hp Hne. unfold BlotterList.search_filters.
  destruct t as [|c t]; [done|].
  cbn [Js.truthy app Store.selects forallb Store.matches].
  destruct (r !! "last_name") as [[n|s|b]|]; try reflexivity.
  by rewrite ilike_plain, andb_true_r.
Qed.

Lemma rows_of_nothing_selected first last p tbl :
  Store.selected (BlotterList.search_filters first last) tbl = [] ->
  Store.rows_of (BlotterList.query first last p) tbl = [].
Proof.
  intros H. unfold BlotterList.query, Store.rows_of. rewrite H.
  unfold Store.slice. change (merge_sort _ []) with (@nil obj).
  by rewrite drop_nil, take_nil.
Qed.

Lemma filter_nothing {A} (f : A -> bool) (l : list A) :
  (forall x, x ∈ l -> f x = false) -> List.filter f l = [].
Proof.
  induction l as [|x l IH]; intros H; simpl; [done|].
  rewrite (H x) by apply list_elem_of_here.
  apply IH. intros y Hy. apply H. by apply list_elem_of_further.
Qed.


Lemma includes_empty s : Js.includes s "" = true.
Proof. by destruct s. Qed.



End Search.

(** ** Pagination *)

Section Pagination.

Lemma value_leb_total a b : Store.value_leb a b = true \/ Store.value_leb b a = true.
Proof.
  destruct a as [[x|x|x]|], b as [[y|y|y]|]; simpl; auto.
  - destruct (Z.leb_spec x y), (Z.leb_spec y x); auto; lia.
  - apply String.leb_total.
  - destruct x, y; auto.
Qed.

Global Instance before_total order : Total (Store.before order).
Proof.
  intros r1 r2. destruct order as [column []]; simpl.
  - destruct (value_leb_total (r1 !! column) (r2 !! column)) as [->| ->]; simpl; auto.
  - destruct (value_leb_total (r1 !! column) (r2 !! column)) as [->| ->]; simpl; auto.
Qed.

Lemma Math_ceil_div_is_ceiling a b :
  0 < b -> Spec.is_ceiling a b (BlotterList.Math_ceil_div a b).
Proof.
  intros Hb. unfold Spec.is_ceiling, BlotterList.Math_ceil_div.
  Z.div_mod_to_equations. nia.
Qed.

(** What a fetch that the remote side answers leaves behind. *)
Lemma fetchEntries_served first last p s w :
  BlotterList.fetchEntries first last p None s w
  = (Ok tt,
     {| BlotterList.entries := Store.rows_of (BlotterList.query first last p) (table w);
        BlotterList.loading := false;
        BlotterList.currentPage := BlotterList.currentPage s;
        BlotterList.totalPages :=
          BlotterList.Math_ceil_div
            (Z.of_nat (length (Store.selected (BlotterList.search_filters first last)
                                 (table w))))
            BlotterList.ROWS_PER_PAGE;
        BlotterList.totalCount :=
          Z.of_nat (length (Store.selected (BlotterList.search_filters first last)
                              (table w))) |},
     served (BlotterList.query first last p) w).
Proof. reflexivity. Qed.

(** A refused fetch shows the error and keeps the list. *)
Lemma fetchEntries_refused first last p e s w :
  BlotterList.fetchEntries first last p (Some e) s w
  = (Ok tt,
     {| BlotterList.entries := BlotterList.entries s;
        BlotterList.loading := false;
        BlotterList.currentPage := BlotterList.currentPage s;
        BlotterList.totalPages := BlotterList.totalPages s;
        BlotterList.totalCount := BlotterList.totalCount s |},
     notify (ToastError ("Error loading entries: " +:+ message e))
       (record (BlotterList.query first last p) w)).
Proof. reflexivity. Qed.

(** The rows of page [p]: twenty rows from offset [20 * (p - 1)]
    of the selected rows in descending order of [date]. *)
Lemma rows_of_page first last p tbl :
  1 <= p ->
  exists ordered,
    Sorted (Store.before ("date", false)) ordered
    /\ ordered ≡ₚ Store.selected (BlotterList.search_filters first last) tbl
    /\ Store.rows_of (BlotterList.query first last p) tbl
       = take 20 (drop (Z.to_nat (20 * (p - 1))) ordered).
Proof.
  intros Hp.
  exists (merge_sort (Store.before ("date", false))
            (Store.selected (BlotterList.search_filters first last) tbl)).
  split; [apply Sorted_merge_sort; apply _|].
  split; [apply merge_sort_Permutation|].
  unfold BlotterList.query, Store.rows_of, Store.slice, BlotterList.ROWS_PER_PAGE.
  f_equal; [|f_equal]; lia.
Qed.

(** C6. The fetch of page [p] sends one query, ordered by [date]
    descending, for the offsets [(p - 1) * 20] to [p * 20 - 1]; when
    it is answered, the count is the number [n] of selected rows,
    the number of pages is the ceiling of [n / 20] and the list is
    the twenty rows from offset [20 * (p - 1)] of the selected rows
    in descending order of [date]. With 45 selected rows there are
    3 pages and page 3 has 5 rows. *)
Theorem pagination first last p s w :
  1 <= p ->
  let q := BlotterList.query first last p in
  let n := Z.of_nat (length (Store.selected (BlotterList.search_filters first last)
                               (table w))) in
  let s' := (BlotterList.fetchEntries first last p None s w).1.2 in
  let w' := (BlotterList.fetchEntries first last p None s w).2 in
  q = Select ("date", false) (BlotterList.search_filters first last)
        (Some ((p - 1) * 20, p * 20 - 1))
  /\ sent w' = sent w ++ [q]
  /\ BlotterList.totalCount s' = n
  /\ Spec.is_ceiling n 20 (BlotterList.totalPages s')
  /\ (exists ordered,
        Sorted (Store.before ("date", false)) ordered
        /\ ordered ≡ₚ Store.selected (BlotterList.search_filters first last) (table w)
        /\ BlotterList.entries s' = take 20 (drop (Z.to_nat (20 * (p - 1))) ordered))
  /\ (n = 45 ->
      BlotterList.totalPages s' = 3
      /\ (p = 3 -> length (BlotterList.entries s') = 5%nat)).
Proof.
  intros Hp q n s' w'. subst s' w'. rewrite fetchEntries_served. cbn [fst snd].
  cbn [BlotterList.totalCount BlotterList.totalPages BlotterList.entries].
  fold n.
  split; [reflexivity|]. split; [reflexivity|]. split; [reflexivity|].
  split; [apply Math_ceil_div_is_ceiling; reflexivity|].
  split; [apply rows_of_page; exact Hp|].
  intros Hn. rewrite Hn. split; [reflexivity|].
  intros ->.
  destruct (rows_of_page first last 3 (table w) Hp) as (ordered & _ & Hperm & ->).
  rewrite length_take, length_drop.
  apply Permutation_length in Hperm.
  change (Z.to_nat (20 * (3 - 1))) with 40%nat.
  subst n. lia.
Qed.

Lemma pagination_witness :
  let s := {| BlotterList.entries := []; BlotterList.loading := true;
              BlotterList.currentPage := 2; BlotterList.totalPages := 1;
              BlotterList.totalCount := 0 |} in
  let w := {| table := map to_obj Sample.entries; next_id := 4; sent := [];
              toasts := []; visited := [] |} in
  sent (BlotterList.fetchEntries "" "" 2 None s w).2
  = [Select ("date", false) [] (Some (20, 39))].
Proof.
  intros s w.
  destruct (pagination "" "" 2 s w ltac:(lia)) as (Hq & Hsent & _).
  rewrite Hsent. reflexivity.
Defined.

(** The rows come back newest first. *)
Example first_page_of_sample :
  Store.rows_of (BlotterList.query "" "" 1) (map to_obj Sample.entries)
  = [to_obj Sample.maria; to_obj Sample.joan; to_obj Sample.john].
Proof. compute_done. Qed.

End Pagination.

(** ** The page reset of the search *)

Section PageReset.
Import BlotterList.

Lemma settle_eq fuel prev cur :
  settle fuel prev cur
  = let '(qs, update) := effects prev cur in
    let next := match update with Some p => with_page cur p | None => cur end in
    if bool_decide (next = cur) then (qs, cur)
    else match fuel with
         | O => (qs, next)
         | S fuel' => let '(qs', v) := settle fuel' (Some cur) next in (qs ++ qs', v)
         end.
Proof. destruct fuel; reflexivity. Qed.

(** The effects of a render in which only the page changed: the
    fetch effect alone runs. *)
Lemma effects_page_changed cur p :
  p <> page cur ->
  effects (Some cur) (with_page cur p)
  = (if bool_decide (is_Some (session cur))
     then [query (debouncedFirstName cur) (debouncedLastName cur) p] else [],
     None).
Proof.
  intros Hp. unfold effects, changed. cbn [with_page debouncedFirstName
    debouncedLastName page session].
  rewrite (bool_decide_true (session cur = _)) by reflexivity.
  rewrite (bool_decide_true (debouncedFirstName cur = _)) by reflexivity.
  rewrite (bool_decide_true (debouncedLastName cur = _)) by reflexivity.
  rewrite (bool_decide_false (page cur = p)) by congruence.
  cbn [negb orb andb app]. reflexivity.
Qed.

(** The effects of a render in which a search term changed: the
    page reset asks for page 1 and the fetch effect sends the query
    for the new terms on the page of this render. *)
Lemma effects_terms_changed v first last :
  (first, last) <> (debouncedFirstName v, debouncedLastName v) ->
  effects (Some v) (with_terms v first last)
  = (if bool_decide (is_Some (session v)) then [query first last (page v)] else [],
     Some 1).
Proof.
  intros Hne. unfold effects, changed. cbn [with_terms debouncedFirstName
    debouncedLastName page session].
  rewrite (bool_decide_true (session v = session v)) by reflexivity.
  assert (Hch : negb (bool_decide (debouncedFirstName v = first))
                || negb (bool_decide (debouncedLastName v = last)) = true).
  { destruct (decide (debouncedFirstName v = first)) as [<-|H1];
      destruct (decide (debouncedLastName v = last)) as [<-|H2].
    - done.
    - rewrite bool_decide_true by done. by rewrite bool_decide_false.
    - by rewrite bool_decide_false.
    - by rewrite bool_decide_false. }
  rewrite Hch. cbn [negb orb andb app]. reflexivity.
Qed.

(** One more render is all a change of the page by the reset
    needs: the render after it asks for no further update. *)
Lemma settle_after_reset fuel cur p :
  p <> page cur ->
  settle fuel (Some cur) (with_page cur p)
  = (if bool_decide (is_Some (session cur))
     then [query (debouncedFirstName cur) (debouncedLastName cur) p] else [],
     with_page cur p).
Proof.
  intros Hp. rewrite settle_eq, effects_page_changed by done.
  cbv beta iota zeta. by rewrite bool_decide_true.
Qed.

Lemma with_page_same v : with_page v (page v) = v.
Proof. by destruct v. Qed.

Lemma with_page_other v p : p <> page v -> with_page v p <> v.
Proof. intros Hp H. apply Hp. by rewrite <- H. Qed.

(** What new search terms make a mounted component do. *)
Lemma on_search_terms_eq v first last :
  (first, last) <> (debouncedFirstName v, debouncedLastName v) ->
  on_search_terms v first last
  = if bool_decide (page v = 1)
    then (if bool_decide (is_Some (session v)) then [query first last 1] else [],
          with_terms v first last)
    else (if bool_decide (is_Some (session v))
          then [query first last (page v); query first last 1] else [],
          with_page (with_terms v first last) 1).
Proof.
  intros Hne. unfold on_search_terms.
  rewrite settle_eq, effects_terms_changed by done. cbv beta iota zeta.
  destruct (decide (page v = 1)) as [H1|H1].
  - rewrite (bool_decide_true (page v = 1)) by done.
    rewrite bool_decide_true
      by (rewrite <- H1; apply (with_page_same (with_terms v first last))).
    by rewrite H1.
  - rewrite (bool_decide_false (page v = 1)) by done.
    rewrite bool_decide_false
      by (apply with_page_other; cbn [page with_terms]; congruence).
    rewrite settle_after_reset by (cbn [page with_terms]; congruence).
    cbn [session debouncedFirstName debouncedLastName with_terms].
    destruct (bool_decide (is_Some (session v))); reflexivity.
Qed.

(** The fuel of [on_search_terms] is enough: more renders change
    nothing. *)
Lemma on_search_terms_settled v first last n :
  (first, last) <> (debouncedFirstName v, debouncedLastName v) ->
  settle (S n) (Some v) (with_terms v first last) = on_search_terms v first last.
Proof.
  intros Hne. unfold on_search_terms.
  rewrite !(settle_eq (S _)), effects_terms_changed by done. cbv beta iota zeta.
  destruct (bool_decide (with_page (with_terms v first last) 1 = with_terms v first last))
    eqn:E; [reflexivity|].
  apply bool_decide_eq_false in E.
  assert (Hp : 1 <> page (with_terms v first last)).
  { intros H. apply E. rewrite H. apply with_page_same. }
  by rewrite !settle_after_reset.
Qed.

(** After new search terms the component shows page 1, and with a
    session the last query it sent is the one for page 1 with the
    new terms. *)
Lemma search_terms_reach_page_1 v first last :
  (first, last) <> (debouncedFirstName v, debouncedLastName v) ->
  page (on_search_terms v first last).2 = 1
  /\ (is_Some (session v) ->
      List.last (on_search_terms v first last).1 (query "" "" 0) = query first last 1).
Proof.
  intros Hne. rewrite on_search_terms_eq by done.
  destruct (decide (page v = 1)) as [H1|H1].
  - rewrite bool_decide_true by done. cbn [fst snd]. split; [done|].
    intros Hs. by rewrite bool_decide_true.
  - rewrite bool_decide_false by done. cbn [fst snd]. split; [done|].
    intros Hs. by rewrite bool_decide_true.
Qed.

(** On another page than the first, with a session, new search
    terms send two queries: one for the new terms on the page that
    was shown, then one for page 1. *)
Lemma search_terms_off_page_1 v first last :
  (first, last) <> (debouncedFirstName v, debouncedLastName v) ->
  page v <> 1 ->
  is_Some (session v) ->
  (on_search_terms v first last).1
  = [query first last (page v); query first last 1].
Proof.
  intros Hne Hp Hs. rewrite on_search_terms_eq by done.
  rewrite bool_decide_false by done. cbn [fst]. by rewrite bool_decide_true.
Qed.

(** C8, at the input where the code departs from it: the list
    shows page 3 and the debounced first name becomes [jo]. The
    fetch effect of that render still reads page 3 and sends the
    query for the offsets 40 to 59; only the next render shows
    page 1 and sends the query for the offsets 0 to 19. *)
Theorem search_terms_fetch_stale_page :
  on_search_terms
    {| debouncedFirstName := ""; debouncedLastName := ""; page := 3;
       session := Some "token" |} "jo" ""
  = ([Select ("date", false) [Ilike "first_name" "%jo%"] (Some (40, 59));
      Select ("date", false) [Ilike "first_name" "%jo%"] (Some (0, 19))],
     {| debouncedFirstName := "jo"; debouncedLastName := ""; page := 1;
        session := Some "token" |}).
Proof. compute_done. Qed.

(** On page 1 there is one query, for page 1. *)
Example search_terms_on_page_1 :
  on_search_terms
    {| debouncedFirstName := ""; debouncedLastName := ""; page := 1;
       session := Some "token" |} "jo" ""
  = ([Select ("date", false) [Ilike "first_name" "%jo%"] (Some (0, 19))],
     {| debouncedFirstName := "jo"; debouncedLastName := ""; page := 1;
        session := Some "token" |}).
Proof. compute_done. Qed.

End PageReset.

(** * More properties of the code *)

(** ** More on the import *)

Section ImportMore.
Import EcmaDate.

(** X1. In every time zone and for every whole serial [v] that a
    [Date] can hold, the date cell is stored as the date [v - 2] days
    after 1900-01-01 when the zone is at or west of Greenwich, and as
    the date one day before it when the zone is east of Greenwich. *)
Theorem import_date_by_time_zone tza v :
  - msPerDay < tza < msPerDay ->
  Spec.serial_in_range v ->
  Settings.normalize_value tza "date" (VNum v)
  = Ok (VStr (Spec.serial_date (if 0 <? tza then v - 1 else v))).
Proof.
  intros Htz Hv. unfold Spec.serial_in_range in Hv.
  destruct (Z.ltb_spec 0 tza).
  - apply serial_date_east; lia.
  - apply serial_date_west; lia.
Qed.

Lemma import_date_by_time_zone_witness :
  Settings.normalize_value (-18000000) "date" (VNum 45292) = Ok (VStr (Spec.serial_date 45292)).
Proof.
  apply (import_date_by_time_zone (-18000000) 45292).
  - unfold msPerDay. lia.
  - unfold Spec.serial_in_range. lia.
Defined.

Lemma normalize_value_throws tza key v e :
  Settings.normalize_value tza key v = Throw e -> e = {| message := "Invalid time value" |}.
Proof.
  destruct v as [n|t|b]; simpl; try discriminate.
  destruct (String.eqb key "date"); [|discriminate].
  destruct (Settings.excel_date tza n); simpl; [discriminate|]. by intros [= <-].
Qed.

Lemma normalize_keys_throws tza (r : row) : forall (o : obj) e,
  Settings.normalize_keys tza o r = Throw e -> e = {| message := "Invalid time value" |}.
Proof.
  induction r as [|[k v] r IH]; intros o e H; simpl in H; [discriminate|].
  unfold Settings.normalize_key in H. simpl in H.
  destruct (Settings.normalize_value tza (Js.toLowerCase (Js.trim k)) v) as [v'|e'] eqn:E;
    simpl in H.
  - by apply (IH _ _ H).
  - injection H as <-. by apply (normalize_value_throws _ _ _ _ E).
Qed.

Lemma normalize_keys_cells tza (r : row) : forall (o o' : obj),
  Settings.normalize_keys tza o r = Ok o' ->
  forall k v, (k, v) ∈ r ->
    exists v', Settings.normalize_value tza (Js.toLowerCase (Js.trim k)) v = Ok v'.
Proof.
  induction r as [|[k0 v0] r IH]; intros o o' H k v Hin; simpl in H.
  - by apply elem_of_nil in Hin.
  - unfold Settings.normalize_key in H. simpl in H.
    destruct (Settings.normalize_value tza (Js.toLowerCase (Js.trim k0)) v0) as [v'|e] eqn:E;
      simpl in H; [|discriminate].
    apply elem_of_cons in Hin as [[= -> ->]|Hin]; [by exists v'|].
    by apply (IH _ _ H).
Qed.

Lemma normalizedData_throws tza jsonData e :
  Settings.normalizedData tza jsonData = Throw e -> e = {| message := "Invalid time value" |}.
Proof.
  unfold Settings.normalizedData.
  induction jsonData as [|r rs IH]; simpl; [discriminate|].
  destruct (Settings.normalizeRow tza r) as [o|e'] eqn:E; simpl.
  - destruct (map_throwing (Settings.normalizeRow tza) rs) as [nd|e'']; simpl;
      [discriminate|].
    intros [= <-]. by apply IH.
  - intros [= <-]. by apply (normalize_keys_throws _ _ _ _ E).
Qed.

Lemma normalizedData_rows tza jsonData nd :
  Settings.normalizedData tza jsonData = Ok nd ->
  length nd = length jsonData
  /\ forall r, r ∈ jsonData -> exists o, Settings.normalizeRow tza r = Ok o.
Proof.
  unfold Settings.normalizedData. revert nd.
  induction jsonData as [|r rs IH]; simpl; intros nd H.
  - injection H as <-. split; [done|]. intros r Hr. by apply elem_of_nil in Hr.
  - destruct (Settings.normalizeRow tza r) as [o|e] eqn:E; simpl in H; [|discriminate].
    destruct (map_throwing (Settings.normalizeRow tza) rs) as [nd'|e]; simpl in H;
      [|discriminate].
    injection H as <-. destruct (IH nd' eq_refl) as [Hlen Hall].
    split; [simpl; by rewrite Hlen|].
    intros r' Hr'. apply elem_of_cons in Hr' as [->|Hr']; [by exists o|by apply Hall].
Qed.

(** X2. A serial in a date column that lies beyond the last day a
    [Date] can hold, in whatever row of the sheet, ends the whole
    import: one file-processing error with the message of the
    [RangeError], no request, the table as before, even when every
    required column is there. *)
Theorem import_aborts_on_unrepresentable_date tza jsonData r k v reply s w :
  - msPerDay < tza < msPerDay ->
  r ∈ jsonData -> (k, VNum v) ∈ r ->
  Js.toLowerCase (Js.trim k) = "date" ->
  100025570 < v ->
  Settings.onload tza jsonData reply s w
  = (Ok tt, Settings.with_importing false s,
     notify (ToastError "Error processing file: Invalid time value") w).
Proof.
  intros Htz Hr Hk Hdate Hv.
  assert (Hnd : Settings.normalizedData tza jsonData
                = Throw {| message := "Invalid time value" |}).
  { destruct (Settings.normalizedData tza jsonData) as [nd|e] eqn:E.
    - destruct (normalizedData_rows _ _ _ E) as [_ Hall].
      destruct (Hall r Hr) as [o Ho].
      destruct (normalize_keys_cells _ _ _ _ Ho k (VNum v) Hk) as [v' Hv'].
      rewrite Hdate, serial_date_out_of_range in Hv' by done. discriminate.
    - f_equal. by apply (normalizedData_throws _ _ _ E). }
  unfold Settings.onload, try_finally, try_catch, lift. rewrite Hnd. reflexivity.
Qed.

Lemma import_aborts_on_unrepresentable_date_witness :
  Settings.onload 0
    [[("first_name", VStr "A")]; [("Date", VNum 200000000)]] None
    {| Settings.showDeleteDialog := false; Settings.deleteConfirmation := "";
       Settings.importing := true |}
    {| table := []; next_id := 1; sent := []; toasts := []; visited := [] |}
  = (Ok tt,
     {| Settings.showDeleteDialog := false; Settings.deleteConfirmation := "";
        Settings.importing := false |},
     {| table := []; next_id := 1; sent := [];
        toasts := [ToastError "Error processing file: Invalid time value"]; visited := [] |}).
Proof.
  apply (import_aborts_on_unrepresentable_date 0 _ [("Date", VNum 200000000)] "Date"
           200000000).
  - unfold msPerDay. lia.
  - apply list_elem_of_further, list_elem_of_here.
  - apply list_elem_of_here.
  - reflexivity.
  - lia.
Defined.

Lemma length_append (a b : string) :
  String.length (a +:+ b) = (String.length a + String.length b)%nat.
Proof.
  induction a as [|c a IH]; [done|]. rewrite append_cons. simpl. by rewrite IH.
Qed.

Lemma pad_length k : forall n, String.length (pad k n) = k.
Proof.
  induction k as [|k IH]; intros n; simpl; [done|].
  rewrite length_append, IH. simpl. lia.
Qed.

Lemma DayFromYear_mono_le a b : a <= b -> DayFromYear a <= DayFromYear b.
Proof.
  intros H. destruct (Z.eq_dec a b) as [->|Hne]; [lia|].
  pose proof (DayFromYear_mono a b). lia.
Qed.

(** The year of a day between the first days of two years. *)
Lemma YearFromDay_range lo hi d :
  DayFromYear lo <= d < DayFromYear hi -> lo <= YearFromDay d < hi.
Proof.
  intros H. pose proof (YearFromDay_spec d) as S. split.
  - destruct (Z.le_gt_cases lo (YearFromDay d)) as [Hle|Hgt]; [done|].
    pose proof (DayFromYear_mono_le (YearFromDay d + 1) lo). lia.
  - destruct (Z.lt_ge_cases (YearFromDay d) hi) as [Hlt|Hge]; [done|].
    pose proof (DayFromYear_mono_le hi (YearFromDay d)). lia.
Qed.

Lemma iso_date_of_day_length d :
  String.length (iso_date_of_day d)
  = (String.length (iso_year (YearFromDay d)) + 6)%nat.
Proof.
  unfold iso_date_of_day, YearFromTime. rewrite Day_of_days.
  rewrite !length_append, !pad_length. simpl. lia.
Qed.

(** X3. At or west of Greenwich the stored date of a serial from
    -693959 (0000-01-01) to 2958465 (9999-12-31) has the ten
    characters of [YYYY-MM-DD]; a later serial gets a text of
    thirteen characters that starts with a plus sign (a year of six
    digits), which is no date of that form. *)
Theorem import_date_shape tza v :
  - msPerDay < tza <= 0 ->
  -693959 <= v <= 100025568 ->
  exists text,
    Settings.normalize_value tza "date" (VNum v) = Ok (VStr text)
    /\ if v <=? 2958465 then String.length text = 10%nat
       else (String.length text = 13%nat /\ Js.startsWith text "+" = true).
Proof.
  intros Htz Hv. exists (Spec.serial_date v).
  split; [apply serial_date_west; lia|].
  unfold Spec.serial_date. rewrite iso_date_of_day_length.
  change Spec.epoch_day with (-25567).
  destruct (Z.leb_spec v 2958465) as [Hle|Hgt].
  - assert (Hy : 0 <= YearFromDay (-25567 + (v - 2)) < 10000).
    { apply YearFromDay_range.
      change (DayFromYear 0) with (-719528). change (DayFromYear 10000) with 2932897. lia. }
    unfold iso_year.
    replace ((0 <=? YearFromDay (-25567 + (v - 2)))
             && (YearFromDay (-25567 + (v - 2)) <=? 9999)) with true
      by (symmetry; apply andb_true_intro; split; apply Z.leb_le; lia).
    by rewrite pad_length.
  - assert (Hy : 10000 <= YearFromDay (-25567 + (v - 2)) < 300000).
    { apply YearFromDay_range.
      assert (E : DayFromYear 300000 = 108853222) by reflexivity.
      change (DayFromYear 10000) with 2932897. lia. }
    unfold iso_date_of_day, YearFromTime. rewrite Day_of_days.
    unfold iso_year.
    replace ((0 <=? YearFromDay (-25567 + (v - 2)))
             && (YearFromDay (-25567 + (v - 2)) <=? 9999)) with false
      by (symmetry; apply andb_false_intro2; apply Z.leb_gt; lia).
    replace (YearFromDay (-25567 + (v - 2)) <? 0) with false
      by (symmetry; apply Z.ltb_ge; lia).
    rewrite length_append, pad_length. split; reflexivity.
Qed.

Lemma import_date_shape_witness :
  exists text,
    Settings.normalize_value 0 "date" (VNum 2958466) = Ok (VStr text)
    /\ String.length text = 13%nat /\ Js.startsWith text "+" = true.
Proof.
  destruct (import_date_shape 0 2958466) as (text & Ht & Hshape).
  - unfold msPerDay. lia.
  - lia.
  - exists text. split; [exact Ht|exact Hshape].
Defined.

Lemma js_set_lookup_eq k v (o : obj) :
  k <> "__proto__" -> js_set k v o !! k = Some v.
Proof.
  intros Hk. unfold js_set. rewrite (proj2 (String.eqb_neq k "__proto__") Hk).
  apply lookup_insert_eq.
Qed.

Lemma js_set_lookup_ne k v (o : obj) col :
  k <> col -> js_set k v o !! col = o !! col.
Proof.
  intros Hk. unfold js_set. destruct (String.eqb k "__proto__"); [done|].
  by apply lookup_insert_ne.
Qed.

Lemma js_set_proto k v (o : obj) : js_set k v o !! "__proto__" = o !! "__proto__".
Proof.
  unfold js_set. destruct (String.eqb_spec k "__proto__") as [->|Hk]; [done|].
  by apply lookup_insert_ne.
Qed.

Lemma normalize_keys_proto tza (r : row) : forall (o o' : obj),
  Settings.normalize_keys tza o r = Ok o' -> o' !! "__proto__" = o !! "__proto__".
Proof.
  induction r as [|[k v] r IH]; intros o o' H; simpl in H.
  - by injection H as <-.
  - unfold Settings.normalize_key in H. simpl in H.
    destruct (Settings.normalize_value tza (Js.toLowerCase (Js.trim k)) v) as [v'|e];
      simpl in H; [|discriminate].
    rewrite (IH _ _ H). apply js_set_proto.
Qed.

Lemma normalize_keys_last_cell tza (r : row) col :
  col <> "__proto__" ->
  forall (o o' : obj),
  Settings.normalize_keys tza o r = Ok o' ->
  match MoreSpec.last_cell col r with
  | None => o' !! col = o !! col
  | Some (k, v) =>
      exists v', Settings.normalize_value tza col v = Ok v' /\ o' !! col = Some v'
  end.
Proof.
  intros Hcol.
  induction r as [|[k v] r IH]; intros o o' H; simpl in H.
  - by injection H as <-.
  - unfold Settings.normalize_key in H. simpl in H.
    destruct (Settings.normalize_value tza (Js.toLowerCase (Js.trim k)) v) as [v'|e] eqn:E;
      simpl in H; [|discriminate].
    specialize (IH _ _ H). simpl.
    destruct (MoreSpec.last_cell col r) as [[k1 v1]|]; [exact IH|].
    rewrite IH. unfold MoreSpec.key_of.
    destruct (decide (Js.toLowerCase (Js.trim k) = col)) as [<-|Hne].
    + rewrite bool_decide_true by done. exists v'.
      split; [done|by apply js_set_lookup_eq].
    + rewrite bool_decide_false by done. by apply js_set_lookup_ne.
Qed.

(** X4. When several headers of a row normalize to the same key,
    the normalized row holds the cell of the last of them (as the
    date conversion stores it); a key that no header normalizes to
    is absent. The one exception is the name [__proto__]: a cell
    whose header normalizes to it is dropped, the normalized row
    never has that key. *)
Theorem import_last_header_wins tza (r : row) (o : obj) col :
  Settings.normalizeRow tza r = Ok o ->
  o !! "__proto__" = None
  /\ (col <> "__proto__" ->
      match MoreSpec.last_cell col r with
      | None => o !! col = None
      | Some (k, v) =>
          exists v', Settings.normalize_value tza col v = Ok v' /\ o !! col = Some v'
      end).
Proof.
  intros H. unfold Settings.normalizeRow in H. split.
  - by rewrite (normalize_keys_proto _ _ _ _ H), lookup_empty.
  - intros Hcol.
    pose proof (normalize_keys_last_cell tza r col Hcol _ _ H) as L.
    destruct (MoreSpec.last_cell col r) as [[k v]|]; [exact L|].
    by rewrite L, lookup_empty.
Qed.

Lemma import_last_header_wins_witness :
  exists v',
    Settings.normalize_value 0 "case_type" (VStr "Fraud") = Ok v'
    /\ (<["case_type" := VStr "Fraud"]> (∅ : obj)) !! "case_type" = Some v'.
Proof.
  apply (import_last_header_wins 0
           [("case_type", VStr "Theft"); (" __PROTO__", VStr "x");
            (" Case_Type", VStr "Fraud")]
           (<["case_type" := VStr "Fraud"]> ∅) "case_type");
    [compute_done|discriminate].
Defined.

Lemma assign_ids_stored (rows : list obj) : forall next,
  length (Store.assign_ids next rows).1 = length rows
  /\ Forall2 (fun o st : obj => forall k, is_Some (o !! k) -> st !! k = o !! k)
       rows (Store.assign_ids next rows).1.
Proof.
  induction rows as [|r rows IH]; intros next; simpl; [by split|].
  destruct (r !! "id") as [i|] eqn:E.
  - specialize (IH next). destruct (Store.assign_ids next rows) as [l n]. simpl in *.
    destruct IH as [Hlen Hall]. split; [by rewrite Hlen|].
    constructor; [done|exact Hall].
  - specialize (IH (next + 1)). destruct (Store.assign_ids (next + 1) rows) as [l n].
    simpl in *. destruct IH as [Hlen Hall]. split; [by rewrite Hlen|].
    constructor; [|exact Hall].
    intros k [x Hk]. rewrite lookup_insert_ne; [done|]. intros <-. congruence.
Qed.

(** X5. An import whose first row has every required column and
    whose insert is carried out appends one stored row per data row
    of the sheet, in the order of the sheet and with every cell as
    normalized, to the table; it reports the number of data rows and
    navigates to the list. *)
Theorem import_adds_every_row tza jsonData first rest s w :
  Settings.normalizedData tza jsonData = Ok (first :: rest) ->
  (forall col, col ∈ Settings.requiredColumns -> is_Some (first !! col)) ->
  exists stored next,
    Settings.onload tza jsonData None s w
    = (Ok tt, Settings.with_importing false s,
       {| table := table w ++ stored; next_id := next;
          sent := sent w ++ [Insert (first :: rest)];
          toasts := toasts w ++ [ToastSuccess ("Successfully imported "
                       +:+ show_Z (Z.of_nat (length jsonData)) +:+ " entries")];
          visited := visited w ++ [("/", false)] |})
    /\ length stored = length jsonData
    /\ Forall2 (fun o st : obj => forall k, is_Some (o !! k) -> st !! k = o !! k)
         (first :: rest) stored.
Proof.
  intros Hnd Hcols.
  rewrite (onload_normalized _ _ _ _ None s w Hnd).
  rewrite filter_nothing.
  2:{ intros col Hcol. apply bool_decide_eq_false. intros Hn.
      destruct (Hcols col Hcol) as [x Hx]. congruence. }
  destruct (normalizedData_rows _ _ _ Hnd) as [Hlen _].
  destruct (assign_ids_stored (first :: rest) (next_id w)) as [Hl Hall].
  exists (Store.assign_ids (next_id w) (first :: rest)).1,
         (Store.assign_ids (next_id w) (first :: rest)).2.
  split; [|split; [by rewrite Hl|exact Hall]].
  unfold served, Store.carry_out. rewrite <- Hlen.
  destruct (Store.assign_ids (next_id w) (first :: rest)) as [l n]. reflexivity.
Qed.

Lemma import_adds_every_row_witness :
  exists stored next,
    Settings.onload 0
      [[("blotter_entry", VStr "x"); ("first_name", VStr "A"); ("last_name", VStr "B");
        ("case_type", VStr "Theft"); ("date", VStr "2024-01-01")]] None
      {| Settings.showDeleteDialog := false; Settings.deleteConfirmation := "";
         Settings.importing := true |}
      {| table := []; next_id := 5; sent := []; toasts := []; visited := [] |}
    = (Ok tt,
       {| Settings.showDeleteDialog := false; Settings.deleteConfirmation := "";
          Settings.importing := false |},
       {| table := stored; next_id := next;
          sent := [Insert [<["blotter_entry" := VStr "x"]> (<["first_name" := VStr "A"]>
                     (<["last_name" := VStr "B"]> (<["case_type" := VStr "Theft"]>
                        (<["date" := VStr "2024-01-01"]> ∅))))]];
          toasts := [ToastSuccess "Successfully imported 1 entries"];
          visited := [("/", false)] |})
    /\ length stored = 1%nat.
Proof.
  destruct (import_adds_every_row 0
      [[("blotter_entry", VStr "x"); ("first_name", VStr "A"); ("last_name", VStr "B");
        ("case_type", VStr "Theft"); ("date", VStr "2024-01-01")]]
      (<["blotter_entry" := VStr "x"]> (<["first_name" := VStr "A"]>
         (<["last_name" := VStr "B"]> (<["case_type" := VStr "Theft"]>
            (<["date" := VStr "2024-01-01"]> ∅))))) []
      {| Settings.showDeleteDialog := false; Settings.deleteConfirmation := "";
         Settings.importing := true |}
      {| table := []; next_id := 5; sent := []; toasts := []; visited := [] |})
    as (stored & next & Hrun & Hlen & _).
  - compute_done.
  - intros col Hcol.
    repeat (apply elem_of_cons in Hcol as [->|Hcol]; [by eexists|]).
    by apply elem_of_nil in Hcol.
  - exists stored, next. split; [exact Hrun|exact Hlen].
Defined.

End ImportMore.

(** ** The entry page *)

Section EntryPageMore.
Import EntryPage.

Lemma run_bind {C A B} (m : M C A) (f : A -> M C B) c w a c' w' :
  m c w = (Ok a, c', w') -> (m ≫= f) c w = f a c' w'.
Proof. intros H. unfold mbind, M_bind. by rewrite H. Qed.

Lemma selected_by_key k (l : list obj) :
  Store.selected [Eq "id" k] l
  = List.filter (fun r : obj => bool_decide (r !! "id" = Some k)) l.
Proof.
  unfold Store.selected. apply filter_ext. intros r. simpl. apply andb_true_r.
Qed.

Lemma selected_no_key k (l : list obj) :
  (forall r, r ∈ l -> r !! "id" <> Some k) -> Store.selected [Eq "id" k] l = [].
Proof.
  intros H. rewrite selected_by_key. apply filter_nothing.
  intros r Hr. apply bool_decide_eq_false. by apply H.
Qed.

(** A key that occurs once selects its row. *)
Lemma selected_unique_key k (l : list obj) r :
  NoDup (MoreSpec.keys l) -> r ∈ l -> r !! "id" = Some k ->
  Store.selected [Eq "id" k] l = [r].
Proof.
  rewrite selected_by_key. unfold MoreSpec.keys.
  induction l as [|x l IH]; intros Hnd Hin Hk.
  - by apply elem_of_nil in Hin.
  - simpl in Hnd. apply NoDup_cons in Hnd as [Hx Hnd]. simpl.
    apply elem_of_cons in Hin as [<-|Hin].
    + rewrite bool_decide_true by done. f_equal.
      apply filter_nothing. intros y Hy. apply bool_decide_eq_false.
      intros Hyk. apply Hx. rewrite Hk, <- Hyk.
      apply (list_elem_of_fmap_2 (fun r : obj => r !! "id")). exact Hy.
    + rewrite bool_decide_false; [by apply IH|].
      intros Hxk. apply Hx. rewrite Hxk, <- Hk.
      apply (list_elem_of_fmap_2 (fun r : obj => r !! "id")). exact Hin.
Qed.

(** With keys that occur once, two rows of a key are one row. *)
Lemma unique_key_row (l : list obj) x y :
  NoDup (MoreSpec.keys l) -> x ∈ l -> y ∈ l -> x !! "id" = y !! "id" -> x = y.
Proof.
  unfold MoreSpec.keys. induction l as [|z l IH]; intros Hnd Hx Hy Hk.
  - by apply elem_of_nil in Hx.
  - simpl in Hnd. apply NoDup_cons in Hnd as [Hz Hnd].
    apply elem_of_cons in Hx as [->|Hx]; apply elem_of_cons in Hy as [->|Hy].
    + done.
    + exfalso. apply Hz. rewrite Hk.
      apply (list_elem_of_fmap_2 (fun r : obj => r !! "id")). exact Hy.
    + exfalso. apply Hz. rewrite <- Hk.
      apply (list_elem_of_fmap_2 (fun r : obj => r !! "id")). exact Hx.
    + by apply IH.
Qed.

Lemma fetchEntry_found id r s w :
  Store.selected [Eq "id" (VNum id)] (table w) = [r] ->
  fetchEntry id None s w
  = (Ok tt,
     {| detail := {| EntryDetail.entry := Some r; EntryDetail.formData := r;
                     EntryDetail.isEditing := EntryDetail.isEditing (detail s) |};
        loading := false; showDeleteDialog := showDeleteDialog s |},
     w).
Proof.
  intros Hsel. unfold fetchEntry, try_finally, try_catch, select_single.
  unfold mbind, M_bind. rewrite Hsel. reflexivity.
Qed.

Lemma fetchEntry_failed id reply s w :
  (reply = None -> forall r, Store.selected [Eq "id" (VNum id)] (table w) <> [r]) ->
  exists e,
    fetchEntry id reply s w
    = (Ok tt,
       {| detail := detail s; loading := false; showDeleteDialog := showDeleteDialog s |},
       visit "/" false (notify (ToastError ("Error loading entry: " +:+ message e)) w)).
Proof.
  intros H. unfold fetchEntry, try_finally, try_catch, select_single.
  unfold mbind, M_bind. destruct reply as [e|].
  - exists e. reflexivity.
  - exists not_single. specialize (H eq_refl).
    destruct (Store.selected [Eq "id" (VNum id)] (table w)) as [|r [|r' l]];
      [reflexivity| |reflexivity].
    by destruct (H r).
Qed.

(** X6. With keys that occur once in the table, the entry page of
    the key of a row loads that row as the entry on show and as the
    content of the form, ends the loading state and neither
    notifies nor navigates. *)
Theorem entry_page_loads_its_row id r s w :
  NoDup (MoreSpec.keys (table w)) ->
  r ∈ table w ->
  r !! "id" = Some (VNum id) ->
  fetchEntry id None s w
  = (Ok tt,
     {| detail := {| EntryDetail.entry := Some r; EntryDetail.formData := r;
                     EntryDetail.isEditing := EntryDetail.isEditing (detail s) |};
        loading := false; showDeleteDialog := showDeleteDialog s |},
     w).
Proof.
  intros Hnd Hin Hk. apply fetchEntry_found. by apply selected_unique_key.
Qed.

Lemma entry_page_loads_its_row_witness :
  let s := {| detail := {| EntryDetail.entry := None; EntryDetail.formData := ∅;
                           EntryDetail.isEditing := false |};
              loading := true; showDeleteDialog := false |} in
  let w := {| table := map to_obj Sample.entries; next_id := 4; sent := [];
              toasts := []; visited := [] |} in
  fetchEntry 2 None s w
  = (Ok tt,
     {| detail := {| EntryDetail.entry := Some (to_obj Sample.joan);
                     EntryDetail.formData := to_obj Sample.joan;
                     EntryDetail.isEditing := false |};
        loading := false; showDeleteDialog := false |},
     w).
Proof.
  intros s w. apply (entry_page_loads_its_row 2 (to_obj Sample.joan) s w).
  - compute_done.
  - compute_done.
  - compute_done.
Defined.

(** X7. When no row of the table has the key of the route, or the
    server refuses the request, the entry page shows an error
    notification that starts with [Error loading entry: ], goes to
    the list, ends the loading state and leaves the entry and the
    form as they were. *)
Theorem entry_page_without_row id reply s w :
  (reply = None -> forall r, r ∈ table w -> r !! "id" <> Some (VNum id)) ->
  exists e,
    fetchEntry id reply s w
    = (Ok tt,
       {| detail := detail s; loading := false; showDeleteDialog := showDeleteDialog s |},
       visit "/" false (notify (ToastError ("Error loading entry: " +:+ message e)) w)).
Proof.
  intros H. apply fetchEntry_failed. intros -> r Hsel.
  rewrite selected_no_key in Hsel by auto. discriminate.
Qed.

Lemma entry_page_without_row_witness :
  let s := {| detail := {| EntryDetail.entry := None; EntryDetail.formData := ∅;
                           EntryDetail.isEditing := false |};
              loading := true; showDeleteDialog := false |} in
  let w := {| table := map to_obj Sample.entries; next_id := 4; sent := [];
              toasts := []; visited := [] |} in
  exists e,
    fetchEntry 7 None s w
    = (Ok tt,
       {| detail := detail s; loading := false; showDeleteDialog := false |},
       visit "/" false (notify (ToastError ("Error loading entry: " +:+ message e)) w)).
Proof.
  intros s w. apply (entry_page_without_row 7 None s w).
  intros _ r Hr.
  repeat (apply elem_of_cons in Hr as [->|Hr]; [compute_done|]).
  by apply elem_of_nil in Hr.
Defined.

End EntryPageMore.

Section EntryEdits.
Import EntryPage.

Lemma handleChanges_run edits : forall s w,
  handleChanges edits s w
  = (Ok tt,
     {| EntryDetail.entry := EntryDetail.entry s;
        EntryDetail.formData := MoreSpec.apply_edits (EntryDetail.formData s) edits;
        EntryDetail.isEditing := EntryDetail.isEditing s |},
     w).
Proof.
  induction edits as [|[name value] edits IH]; intros s w.
  - by destruct s.
  - simpl. erewrite run_bind by reflexivity. by rewrite IH.
Qed.

Lemma apply_edits_untouched k edits : forall form : obj,
  (forall e, e ∈ edits -> e.1 <> k) ->
  MoreSpec.apply_edits form edits !! k = form !! k.
Proof.
  induction edits as [|e edits IH]; intros form H; [done|].
  unfold MoreSpec.apply_edits in *. simpl. rewrite IH.
  - apply lookup_insert_ne. apply H, list_elem_of_here.
  - intros e' He'. apply H. by apply list_elem_of_further.
Qed.

Lemma apply_edits_keeps k edits : forall form : obj,
  is_Some (form !! k) -> is_Some (MoreSpec.apply_edits form edits !! k).
Proof.
  induction edits as [|e edits IH]; intros form H; [done|].
  unfold MoreSpec.apply_edits in *. simpl. apply IH.
  destruct (decide (e.1 = k)) as [<-|Hne].
  - rewrite lookup_insert_eq. by eexists.
  - by rewrite lookup_insert_ne.
Qed.

(** The row that an update from an edited form of the row leaves in
    the table is the edited form. *)
Lemma patch_edited (r : obj) edits :
  (forall e, e ∈ edits -> e.1 <> "id" /\ e.1 <> "created_at") ->
  Store.patch (EntryDetail.updateData (MoreSpec.apply_edits r edits)) r
  = MoreSpec.apply_edits r edits.
Proof.
  intros H. unfold Store.patch. apply map_eq. intros k.
  destruct (updateData_columns (MoreSpec.apply_edits r edits)) as (Hid & Hc & Hother).
  rewrite lookup_union.
  destruct (decide (k = "id")) as [->|Hk1].
  { rewrite Hid, apply_edits_untouched by (intros e He; apply (H e He)).
    by destruct (r !! "id"). }
  destruct (decide (k = "created_at")) as [->|Hk2].
  { rewrite Hc, apply_edits_untouched by (intros e He; apply (H e He)).
    by destruct (r !! "created_at"). }
  rewrite Hother by done.
  destruct (MoreSpec.apply_edits r edits !! k) as [x|] eqn:E.
  - by destruct (r !! k).
  - destruct (r !! k) as [y|] eqn:E'; [|done].
    destruct (apply_edits_keeps k edits r) as [z Hz]; [by eexists|]. congruence.
Qed.

(** X8. Closing the form of a loaded entry without saving throws
    the changes of the inputs away: the form holds the entry again,
    the page leaves the editing mode, and nothing was sent,
    notified or navigated to. *)
Theorem cancel_discards_edits r edits s w :
  EntryDetail.entry s = Some r ->
  (startEditing;; handleChanges edits;; cancelEditing) s w
  = (Ok tt,
     {| EntryDetail.entry := Some r; EntryDetail.formData := r;
        EntryDetail.isEditing := false |},
     w).
Proof.
  intros He. unfold startEditing.
  erewrite run_bind by reflexivity.
  erewrite run_bind by apply handleChanges_run.
  unfold cancelEditing. cbn [EntryDetail.entry]. rewrite He. reflexivity.
Qed.

Lemma cancel_discards_edits_witness :
  (startEditing;; handleChanges [("first_name", "Jon"); ("date", "2024-02-02")];;
   cancelEditing)
    {| EntryDetail.entry := Some (to_obj Sample.john);
       EntryDetail.formData := to_obj Sample.john; EntryDetail.isEditing := false |}
    {| table := map to_obj Sample.entries; next_id := 4; sent := []; toasts := [];
       visited := [] |}
  = (Ok tt,
     {| EntryDetail.entry := Some (to_obj Sample.john);
        EntryDetail.formData := to_obj Sample.john; EntryDetail.isEditing := false |},
     {| table := map to_obj Sample.entries; next_id := 4; sent := []; toasts := [];
        visited := [] |}).
Proof.
  apply (cancel_discards_edits (to_obj Sample.john)). reflexivity.
Defined.

(** X9. Load, edit, save, load again. With keys that occur once in
    the table, and changes of inputs other than [id] and
    [created_at]: the save sends one update whose payload is the
    edited form without [id] and [created_at]; in the table the row
    of the key is then the edited form and every other row is as
    before; the page shows the edited form and has left the editing
    mode, and loading the page again shows the same entry. *)
Theorem save_then_reload id r edits s w :
  NoDup (MoreSpec.keys (table w)) ->
  r ∈ table w ->
  r !! "id" = Some (VNum id) ->
  (forall e, e ∈ edits -> e.1 <> "id" /\ e.1 <> "created_at") ->
  let r' := MoreSpec.apply_edits r edits in
  (fetchEntry id None;;
   on_detail (startEditing;; handleChanges edits;; EntryDetail.handleUpdate id None);;
   fetchEntry id None) s w
  = (Ok tt,
     {| detail := {| EntryDetail.entry := Some r'; EntryDetail.formData := r';
                     EntryDetail.isEditing := false |};
        loading := false; showDeleteDialog := showDeleteDialog s |},
     {| table := map (fun x : obj => if bool_decide (x !! "id" = Some (VNum id))
                                      then r' else x) (table w);
        next_id := next_id w;
        sent := sent w ++ [Update (EntryDetail.updateData r') [Eq "id" (VNum id)]];
        toasts := toasts w ++ [ToastSuccess "Entry updated successfully"];
        visited := visited w |}).
Proof.
  intros Hnd Hin Hk Hed r'.
  erewrite run_bind
    by (apply fetchEntry_found; apply selected_unique_key; eassumption).
  set (q := Update (EntryDetail.updateData r') [Eq "id" (VNum id)]).
  assert (Htbl : table (served q w)
                 = map (fun x : obj => if bool_decide (x !! "id" = Some (VNum id))
                                       then r' else x) (table w)).
  { pose proof (proj2 (handleUpdate_served id
      {| EntryDetail.entry := Some r; EntryDetail.formData := r';
         EntryDetail.isEditing := true |} w)) as Hserved.
    cbn [EntryDetail.formData] in Hserved. unfold q. rewrite Hserved.
    apply map_ext_in. intros x Hx. apply list_elem_of_In in Hx.
    destruct (decide (x !! "id" = Some (VNum id))) as [Hxk|Hxk].
    - rewrite !bool_decide_true by done.
      assert (x = r) as -> by (apply (unique_key_row (table w)); congruence).
      by apply patch_edited.
    - by rewrite !bool_decide_false. }
  assert (Hrun : on_detail (startEditing;; handleChanges edits;;
                            EntryDetail.handleUpdate id None)
                   {| detail := {| EntryDetail.entry := Some r; EntryDetail.formData := r;
                                   EntryDetail.isEditing := EntryDetail.isEditing (detail s) |};
                      loading := false; showDeleteDialog := showDeleteDialog s |} w
                 = (Ok tt,
                    {| detail := {| EntryDetail.entry := Some r'; EntryDetail.formData := r';
                                    EntryDetail.isEditing := false |};
                       loading := false; showDeleteDialog := showDeleteDialog s |},
                    notify (ToastSuccess "Entry updated successfully") (served q w))).
  { unfold on_detail, zoom, startEditing. cbn [detail].
    erewrite run_bind by reflexivity.
    erewrite run_bind by apply handleChanges_run.
    cbn [EntryDetail.entry EntryDetail.formData EntryDetail.isEditing].
    fold r'. rewrite (proj1 (handleUpdate_served id _ w)). reflexivity. }
  erewrite run_bind by exact Hrun.
  rewrite (fetchEntry_found id r').
  { cbn [detail EntryDetail.isEditing showDeleteDialog]. f_equal.
    unfold notify. rewrite <- Htbl. unfold served, q. reflexivity. }
  apply selected_unique_key.
  - rewrite table_notify, Htbl. unfold MoreSpec.keys. rewrite map_map.
    erewrite map_ext; [exact Hnd|]. intros x. cbv beta.
    destruct (decide (x !! "id" = Some (VNum id))) as [Hxk|Hxk].
    + rewrite bool_decide_true by done. unfold r'.
      rewrite apply_edits_untouched by (intros e He; apply (Hed e He)). congruence.
    + by rewrite bool_decide_false.
  - rewrite table_notify, Htbl.
    apply list_elem_of_fmap. exists r. split; [by rewrite bool_decide_true|done].
  - unfold r'. rewrite apply_edits_untouched by (intros e He; apply (Hed e He)). done.
Qed.

Lemma save_then_reload_witness :
  let s := {| detail := {| EntryDetail.entry := None; EntryDetail.formData := ∅;
                           EntryDetail.isEditing := false |};
              loading := true; showDeleteDialog := false |} in
  let w := {| table := map to_obj Sample.entries; next_id := 4; sent := [];
              toasts := []; visited := [] |} in
  let r' := MoreSpec.apply_edits (to_obj Sample.joan) [("first_name", "Joanna")] in
  (fetchEntry 2 None;;
   on_detail (startEditing;; handleChanges [("first_name", "Joanna")];;
              EntryDetail.handleUpdate 2 None);;
   fetchEntry 2 None) s w
  = (Ok tt,
     {| detail := {| EntryDetail.entry := Some r'; EntryDetail.formData := r';
                     EntryDetail.isEditing := false |};
        loading := false; showDeleteDialog := false |},
     {| table := map (fun x : obj => if bool_decide (x !! "id" = Some (VNum 2))
                                      then r' else x) (table w);
        next_id := 4;
        sent := [Update (EntryDetail.updateData r') [Eq "id" (VNum 2)]];
        toasts := [ToastSuccess "Entry updated successfully"];
        visited := [] |}).
Proof.
  intros s w r'.
  apply (save_then_reload 2 (to_obj Sample.joan) [("first_name", "Joanna")] s w).
  - compute_done.
  - compute_done.
  - compute_done.
  - intros e He. apply list_elem_of_singleton in He as ->. split; discriminate.
Defined.

(** X10. After a delete by the key of the page was carried out, the
    table has no row of that key, and loading the page of that key
    fails: an error notification after the one of the delete, and a
    second navigation to the list. *)
Theorem deleted_entry_is_gone id s w :
  exists e,
    (on_detail (EntryDetail.handleDelete id None);; fetchEntry id None) s w
    = (Ok tt,
       {| detail := detail s; loading := false; showDeleteDialog := showDeleteDialog s |},
       {| table := List.filter (fun r : obj => negb (bool_decide (r !! "id" = Some (VNum id))))
                     (table w);
          next_id := next_id w;
          sent := sent w ++ [Delete [Eq "id" (VNum id)]];
          toasts := toasts w ++ [ToastSuccess "Entry deleted successfully";
                                 ToastError ("Error loading entry: " +:+ message e)];
          visited := visited w ++ [("/", false); ("/", false)] |})
    /\ forall r, r ∈ List.filter (fun r : obj => negb (bool_decide (r !! "id" = Some (VNum id))))
                     (table w) -> r !! "id" <> Some (VNum id).
Proof.
  destruct (handleDelete_served id (detail s) w) as [Hrun Htbl].
  set (w1 := visit "/" false (notify (ToastSuccess "Entry deleted successfully")
                                (served (Delete [Eq "id" (VNum id)]) w))) in *.
  assert (Hgone : forall r, r ∈ List.filter
                    (fun r : obj => negb (bool_decide (r !! "id" = Some (VNum id)))) (table w)
                  -> r !! "id" <> Some (VNum id)).
  { intros r Hr Hk. apply list_elem_of_In, filter_In in Hr as [_ Hr].
    by rewrite bool_decide_true in Hr. }
  destruct (fetchEntry_failed id None
              {| detail := detail s; loading := loading s;
                 showDeleteDialog := showDeleteDialog s |} w1) as [e He].
  { intros _ r Hsel. rewrite selected_no_key in Hsel; [discriminate|].
    unfold w1. rewrite table_visit, table_notify, Htbl. exact Hgone. }
  exists e. split; [|exact Hgone].
  erewrite run_bind.
  2:{ unfold on_detail, zoom. rewrite Hrun. unfold with_detail. reflexivity. }
  rewrite He. cbn [detail loading showDeleteDialog]. f_equal.
  unfold w1, visit, notify. cbn [table next_id sent toasts visited].
  rewrite Htbl. unfold served. cbn [Store.carry_out table next_id sent toasts visited].
  by rewrite <- !app_assoc.
Qed.

End EntryEdits.

(** ** The add form *)

Section AddEntryMore.
Import EcmaDate.

Lemma add_handleChanges_run edits : forall s w,
  AddEntry.handleChanges edits s w
  = (Ok tt,
     {| AddEntry.formData := MoreSpec.apply_edits (AddEntry.formData s) edits;
        AddEntry.loading := AddEntry.loading s |},
     w).
Proof.
  induction edits as [|[name value] edits IH]; intros s w.
  - by destruct s.
  - simpl. erewrite run_bind by reflexivity. by rewrite IH.
Qed.

(** X11. Fill in the add form, submit, open the new entry. From a
    form without an [id], with changes of inputs other than [id],
    and a table in which the next key of the sequence is not in
    use: a submit that is carried out sends one insert of the form,
    reports success, goes to the list and appends one row to the
    table. That row has the next key as its [id] and every field of
    the form as it was submitted; what else the server puts into the
    row is left open. The entry page of that key then loads this
    row. *)
Theorem add_then_open edits s w :
  AddEntry.formData s !! "id" = None ->
  (forall e, e ∈ edits -> e.1 <> "id") ->
  (forall r, r ∈ table w -> r !! "id" <> Some (VNum (next_id w))) ->
  let form := MoreSpec.apply_edits (AddEntry.formData s) edits in
  exists stored w1,
    (AddEntry.handleChanges edits;; AddEntry.handleSubmit None) s w
    = (Ok tt, {| AddEntry.formData := form; AddEntry.loading := false |}, w1)
    /\ table w1 = table w ++ [stored]
    /\ sent w1 = sent w ++ [Insert [form]]
    /\ toasts w1 = toasts w ++ [ToastSuccess "Entry added successfully"]
    /\ visited w1 = visited w ++ [("/", false)]
    /\ stored !! "id" = Some (VNum (next_id w))
    /\ (forall k, is_Some (form !! k) -> stored !! k = form !! k)
    /\ forall p,
         EntryPage.fetchEntry (next_id w) None p w1
         = (Ok tt,
            {| EntryPage.detail :=
                 {| EntryDetail.entry := Some stored; EntryDetail.formData := stored;
                    EntryDetail.isEditing := EntryDetail.isEditing (EntryPage.detail p) |};
               EntryPage.loading := false;
               EntryPage.showDeleteDialog := EntryPage.showDeleteDialog p |},
            w1).
Proof.
  intros Hid Hed Hfresh form.
  assert (Hform : form !! "id" = None).
  { unfold form. by rewrite apply_edits_untouched. }
  exists (<["id" := VNum (next_id w)]> form),
    {| table := table w ++ [<["id" := VNum (next_id w)]> form];
       next_id := next_id w + 1;
       sent := sent w ++ [Insert [form]];
       toasts := toasts w ++ [ToastSuccess "Entry added successfully"];
       visited := visited w ++ [("/", false)] |}.
  cbn [table sent toasts visited].
  split; [|split; [done|split; [done|split; [done|split; [done|split;
          [apply lookup_insert_eq|split]]]]]].
  - erewrite run_bind by apply add_handleChanges_run. fold form.
    unfold AddEntry.handleSubmit, AddEntry.setLoading, try_finally, try_catch, send.
    unfold mbind, M_bind, set_state, served.
    cbn [AddEntry.formData AddEntry.loading Store.carry_out Store.assign_ids].
    rewrite Hform. reflexivity.
  - intros k [x Hk]. rewrite lookup_insert_ne; [done|]. intros <-. congruence.
  - intros p. apply fetchEntry_found.
    rewrite selected_by_key. cbn [table].
    rewrite List.filter_app, filter_nothing.
    + simpl. rewrite lookup_insert_eq. by rewrite bool_decide_true.
    + intros r Hr. apply bool_decide_eq_false. by apply Hfresh.
Qed.

Lemma add_then_open_witness :
  let s := AddEntry.initial 1704067200000 in
  let w := {| table := map to_obj Sample.entries; next_id := 4; sent := [];
              toasts := []; visited := [] |} in
  let edits := [("first_name", "Ana"); ("last_name", "Cruz"); ("case_type", "Theft");
                ("blotter_entry", "Lost phone")] in
  exists stored w1,
    (AddEntry.handleChanges edits;; AddEntry.handleSubmit None) s w
    = (Ok tt, {| AddEntry.formData := MoreSpec.apply_edits (AddEntry.formData s) edits;
                 AddEntry.loading := false |}, w1)
    /\ table w1 = map to_obj Sample.entries ++ [stored]
    /\ stored !! "id" = Some (VNum 4).
Proof.
  intros s w edits.
  destruct (add_then_open edits s w) as (stored & w1 & Hrun & Htbl & _ & _ & _ & Hid & _).
  - compute_done.
  - intros e He.
    repeat (apply elem_of_cons in He as [->|He]; [discriminate|]).
    by apply elem_of_nil in He.
  - intros r Hr.
    repeat (apply elem_of_cons in Hr as [->|Hr]; [compute_done|]).
    by apply elem_of_nil in Hr.
  - exists stored, w1. split; [exact Hrun|]. split; [exact Htbl|exact Hid].
Defined.

(** X12. The date that the add form starts with is the date of the
    UTC day of the instant the page opens, not the local date: at
    an offset [tza] east of Greenwich it is the day before the
    local date during the first [tza] milliseconds of a local day,
    and at an offset west of Greenwich the day after the local date
    during the last [- tza] milliseconds. *)
Theorem add_form_default_date tza now :
  - msPerDay < tza < msPerDay ->
  AddEntry.formData (AddEntry.initial now) !! "date"
  = Some (VStr (iso_date_of_day
       (Day (now + tza)
        + (if TimeWithinDay (now + tza) <? tza then -1
           else if msPerDay + tza <=? TimeWithinDay (now + tza) then 1 else 0)))).
Proof.
  intros Htz. unfold AddEntry.initial. cbn [AddEntry.formData].
  rewrite lookup_insert_ne by done. rewrite lookup_insert_ne by done.
  rewrite lookup_insert_ne by done. rewrite lookup_insert_eq.
  unfold AddEntry.today. rewrite iso_string_date_part. do 3 f_equal.
  unfold Day, TimeWithinDay in *. unfold msPerDay in *.
  pose proof (Z.div_mod (now + tza) 86400000 ltac:(lia)) as Hdm.
  pose proof (Z.mod_pos_bound (now + tza) 86400000 ltac:(lia)) as Hb.
  destruct (Z.ltb_spec ((now + tza) mod 86400000) tza) as [H1|H1].
  - symmetry. apply (Z.div_unique _ _ _ ((now + tza) mod 86400000 - tza + 86400000)); lia.
  - destruct (Z.leb_spec (86400000 + tza) ((now + tza) mod 86400000)) as [H2|H2].
    + symmetry. apply (Z.div_unique _ _ _ ((now + tza) mod 86400000 - tza - 86400000)); lia.
    + symmetry. apply (Z.div_unique _ _ _ ((now + tza) mod 86400000 - tza)); lia.
Qed.

Lemma add_form_default_date_witness :
  AddEntry.formData (AddEntry.initial 1704038400000) !! "date"
  = Some (VStr "2023-12-31").
Proof.
  rewrite (add_form_default_date 28800000 1704038400000).
  - reflexivity.
  - unfold msPerDay. lia.
Defined.

End AddEntryMore.

(** ** The list: sessions, the pager and the pages *)

Section PagerMore.
Import BlotterList Pager.

Lemma effects_no_session prev cur :
  session cur = None -> (effects prev cur).1 = [].
Proof.
  intros H. unfold effects. rewrite H.
  rewrite (bool_decide_false (is_Some None)) by (intros [x Hx]; discriminate).
  by rewrite !andb_false_r.
Qed.

Lemma settle_no_session fuel : forall prev cur,
  session cur = None -> (settle fuel prev cur).1 = [].
Proof.
  induction fuel as [|fuel IH]; intros prev cur H; rewrite settle_eq;
    pose proof (effects_no_session prev cur H) as E;
    destruct (effects prev cur) as [qs update]; simpl in E; subst qs;
    cbv beta iota zeta; case_bool_decide; try reflexivity.
  specialize (IH (Some cur)
    (match update with Some p => with_page cur p | None => cur end)).
  destruct (settle fuel _ _) as [qs' v]. simpl in *. apply IH.
  by destruct update.
Qed.

Lemma settle_session fuel : forall prev cur,
  session (settle fuel prev cur).2 = session cur.
Proof.
  induction fuel as [|fuel IH]; intros prev cur; rewrite settle_eq;
    destruct (effects prev cur) as [qs update];
    cbv beta iota zeta; case_bool_decide; try reflexivity.
  - by destruct update.
  - specialize (IH (Some cur)
      (match update with Some p => with_page cur p | None => cur end)).
    destruct (settle fuel _ _) as [qs' v]. simpl in *. rewrite IH.
    by destruct update.
Qed.

(** A click on a button of the pager that is shown and enabled
    moves one page and, with a session, sends the query of the new
    page; any other click does nothing. *)
Lemma on_click_eq tp v c :
  on_click tp v c
  = let target := match c with Previous => page v - 1 | Next => page v + 1 end in
    let enabled :=
      (1 <? tp) && match c with
                   | Previous => negb (page v =? 1)
                   | Next => negb (tp <=? page v)
                   end in
    if enabled
    then (if bool_decide (is_Some (session v))
          then [query (debouncedFirstName v) (debouncedLastName v) target] else [],
          with_page v target)
    else ([], v).
Proof.
  unfold on_click, pagination_shown, previous_disabled, next_disabled, handlePageChange.
  cbv zeta. destruct (1 <? tp); [|reflexivity]. cbn [negb andb].
  destruct c.
  - destruct (page v =? 1); [reflexivity|]. cbn [negb].
    apply settle_after_reset. lia.
  - destruct (tp <=? page v); [reflexivity|]. cbn [negb].
    apply settle_after_reset. lia.
Qed.

(** X13. Without a session the list sends no query: not at its
    first render, not for new search terms, not for a change of
    page and not for any run of clicks on the pager. *)
Theorem no_session_no_query v :
  session v = None ->
  (mount v).1 = []
  /\ (forall first last, (on_search_terms v first last).1 = [])
  /\ (forall p, (handlePageChange v p).1 = [])
  /\ (forall tp cs, (on_clicks tp v cs).1 = []).
Proof.
  intros H. split; [|split; [|split]].
  - by apply settle_no_session.
  - intros first last. by apply settle_no_session.
  - intros p. by apply settle_no_session.
  - intros tp cs. revert v H. induction cs as [|c cs IH]; intros v H; [reflexivity|].
    simpl. rewrite on_click_eq. cbv zeta.
    rewrite (bool_decide_false (is_Some (session v)))
      by (rewrite H; intros [x Hx]; discriminate).
    match goal with |- context [if ?b then _ else _] => destruct b end.
    + specialize (IH (with_page v (match c with
                                   | Previous => page v - 1 | Next => page v + 1 end)) H).
      destruct (on_clicks tp _ cs) as [qs' v']. exact IH.
    + specialize (IH v H). destruct (on_clicks tp v cs) as [qs' v']. exact IH.
Qed.

Lemma no_session_no_query_witness :
  (on_clicks 3 {| debouncedFirstName := "jo"; debouncedLastName := ""; page := 1;
                  session := None |} [Next; Next; Previous]).1 = [].
Proof.
  apply (no_session_no_query
           {| debouncedFirstName := "jo"; debouncedLastName := ""; page := 1;
              session := None |}).
  reflexivity.
Defined.

(** X14. A list that is first rendered with a session, on page 1
    and with empty search boxes, sends the same query twice, once
    from each of its two fetching effects, and stays on page 1. *)
Theorem mount_fetches_twice v :
  is_Some (session v) ->
  page v = 1 -> debouncedFirstName v = "" -> debouncedLastName v = "" ->
  mount v = ([query "" "" 1; query "" "" 1], v).
Proof.
  intros Hs Hp Hf Hl. unfold mount. rewrite settle_eq.
  unfold effects, changed. rewrite Hp, Hf, Hl.
  rewrite (bool_decide_true (is_Some (session v))) by done.
  cbn [andb orb app]. cbv beta iota zeta.
  rewrite bool_decide_true; [reflexivity|].
  rewrite <- Hp. apply with_page_same.
Qed.

Lemma mount_fetches_twice_witness :
  mount {| debouncedFirstName := ""; debouncedLastName := ""; page := 1;
           session := Some "token" |}
  = ([query "" "" 1; query "" "" 1],
     {| debouncedFirstName := ""; debouncedLastName := ""; page := 1;
        session := Some "token" |}).
Proof.
  apply (mount_fetches_twice {| debouncedFirstName := ""; debouncedLastName := "";
                                page := 1; session := Some "token" |});
    [by eexists|reflexivity..].
Defined.

(** X15. When a mounted list gets another session, it sends two
    queries for the page on show: first one without any search
    filter, whatever the search boxes hold, then the one with the
    search terms; page and terms stay. *)
Theorem new_session_fetches_unfiltered v t :
  session v <> Some t ->
  on_session v (Some t)
  = ([query "" "" (page v); query (debouncedFirstName v) (debouncedLastName v) (page v)],
     {| debouncedFirstName := debouncedFirstName v; debouncedLastName := debouncedLastName v;
        page := page v; session := Some t |}).
Proof.
  intros Hs. unfold on_session. rewrite settle_eq.
  unfold effects, changed.
  cbn [debouncedFirstName debouncedLastName page session].
  rewrite (bool_decide_false (session v = Some t)) by done.
  rewrite (bool_decide_true (debouncedFirstName v = _)) by reflexivity.
  rewrite (bool_decide_true (debouncedLastName v = _)) by reflexivity.
  rewrite (bool_decide_true (is_Some (Some t))) by (by eexists).
  cbn [negb andb orb app]. rewrite !orb_true_r. cbn [andb]. cbv beta iota zeta.
  by rewrite bool_decide_true.
Qed.

Lemma new_session_fetches_unfiltered_witness :
  on_session {| debouncedFirstName := "jo"; debouncedLastName := ""; page := 2;
                session := Some "old" |} (Some "new")
  = ([query "" "" 2; query "jo" "" 2],
     {| debouncedFirstName := "jo"; debouncedLastName := ""; page := 2;
        session := Some "new" |}).
Proof.
  apply (new_session_fetches_unfiltered
           {| debouncedFirstName := "jo"; debouncedLastName := ""; page := 2;
              session := Some "old" |} "new").
  discriminate.
Defined.

(** X16. From a page between 1 and the number of pages, no run of
    clicks on the pager leaves that range; the search terms and the
    session stay; a click sends at most one query, and every query
    sent is the one of a page in the range with the search terms of
    the list. *)
Theorem pager_stays_in_range tp cs : forall v,
  1 <= page v <= tp ->
  1 <= page (on_clicks tp v cs).2 <= tp
  /\ debouncedFirstName (on_clicks tp v cs).2 = debouncedFirstName v
  /\ debouncedLastName (on_clicks tp v cs).2 = debouncedLastName v
  /\ session (on_clicks tp v cs).2 = session v
  /\ (length (on_clicks tp v cs).1 <= length cs)%nat
  /\ Forall (fun q => exists p, 1 <= p <= tp
                        /\ q = query (debouncedFirstName v) (debouncedLastName v) p)
       (on_clicks tp v cs).1.
Proof.
  induction cs as [|c cs IH]; intros v Hv.
  - simpl. repeat split; try lia; constructor.
  - simpl. rewrite on_click_eq. cbv zeta.
    set (target := match c with Previous => page v - 1 | Next => page v + 1 end).
    destruct ((1 <? tp) && match c with
                           | Previous => negb (page v =? 1)
                           | Next => negb (tp <=? page v)
                           end) eqn:En.
    + assert (Ht : 1 <= target <= tp).
      { apply andb_prop in En as [_ En].
        unfold target. destruct c; apply negb_true_iff in En.
        - apply Z.eqb_neq in En. lia.
        - apply Z.leb_gt in En. lia. }
      specialize (IH (with_page v target) Ht).
      destruct (on_clicks tp (with_page v target) cs) as [qs' v'].
      cbn [fst snd with_page debouncedFirstName debouncedLastName session page] in *.
      destruct IH as (H1 & H2 & H3 & H4 & H5 & H6).
      repeat split; try done; try lia.
      * rewrite length_app. destruct (bool_decide (is_Some (session v))); simpl; lia.
      * apply Forall_app. split; [|exact H6].
        destruct (bool_decide (is_Some (session v))); constructor; [|constructor].
        exists target. done.
    + specialize (IH v Hv). destruct (on_clicks tp v cs) as [qs' v'].
      cbn [fst snd] in *. destruct IH as (H1 & H2 & H3 & H4 & H5 & H6).
      repeat split; try done; try lia. simpl. lia.
Qed.

Lemma pager_stays_in_range_witness :
  1 <= page (on_clicks 3 {| debouncedFirstName := ""; debouncedLastName := ""; page := 2;
                            session := Some "token" |}
               [Next; Next; Next; Previous]).2 <= 3.
Proof.
  apply (pager_stays_in_range 3 [Next; Next; Next; Previous]
           {| debouncedFirstName := ""; debouncedLastName := ""; page := 2;
              session := Some "token" |}).
  cbn [page]. lia.
Defined.

(** X17. The sizes of the pages. With [n] selected rows and the
    number of pages that the list computes from [n], a page before
    the last has twenty rows and the last page has the remaining
    one to twenty rows. *)
Theorem page_sizes first last p tbl :
  let n := Z.of_nat (length (Store.selected (search_filters first last) tbl)) in
  let pages := Math_ceil_div n ROWS_PER_PAGE in
  let rows := Store.rows_of (query first last p) tbl in
  1 <= p <= pages ->
  (p < pages -> length rows = 20%nat)
  /\ (p = pages -> Z.of_nat (length rows) = n - 20 * (pages - 1)
                   /\ 1 <= Z.of_nat (length rows) <= 20).
Proof.
  intros n pages rows [Hp Hle].
  destruct (rows_of_page first last p tbl Hp) as (ordered & _ & Hperm & Hrows).
  fold rows in Hrows. apply Permutation_length in Hperm. fold n in Hperm.
  assert (Hlen : Z.of_nat (length rows) = Z.max 0 (Z.min 20 (n - 20 * (p - 1)))).
  { rewrite Hrows, length_take, length_drop. subst n. lia. }
  pose proof (Math_ceil_div_is_ceiling n ROWS_PER_PAGE eq_refl) as Hc.
  fold pages in Hc. unfold Spec.is_ceiling, ROWS_PER_PAGE in Hc.
  split.
  - intros Hlt. lia.
  - intros ->. lia.
Qed.

Lemma page_sizes_witness :
  Z.of_nat (length (Store.rows_of (query "" "" 1) (map to_obj Sample.entries))) = 3.
Proof.
  destruct (page_sizes "" "" 1 (map to_obj Sample.entries)) as [_ H].
  - vm_compute. split; discriminate.
  - destruct H as [H _]; [vm_compute; reflexivity|].
    rewrite H. vm_compute. reflexivity.
Defined.

End PagerMore.

(** ** Search and the filters of the in-memory list *)

Section FiltersMore.
Import BlotterListLocal LocalFilters.

Lemma search_filters_app first last :
  BlotterList.search_filters first last
  = BlotterList.search_filters first "" ++ BlotterList.search_filters "" last.
Proof.
  unfold BlotterList.search_filters. cbn [Js.truthy]. by rewrite app_nil_r.
Qed.

Lemma selects_app fs gs (r : obj) :
  Store.selects (fs ++ gs) r = Store.selects fs r && Store.selects gs r.
Proof. unfold Store.selects. apply forallb_app. Qed.

(** X18. With a text in both search boxes of the remote variant,
    both without pattern characters, and ASCII text in the boxes
    and in the two name columns of a row: the row is selected
    exactly when its [first_name] contains the first text and its
    [last_name] the second, letter case apart. *)
Theorem search_both_boxes first last (tbl : list obj) r :
  Spec.plain first = true -> first <> "" ->
  Spec.plain last = true -> last <> "" ->
  MoreSpec.ascii_text first = true -> MoreSpec.ascii_text last = true ->
  (forall s, r !! "first_name" = Some (VStr s) -> MoreSpec.ascii_text s = true) ->
  (forall s, r !! "last_name" = Some (VStr s) -> MoreSpec.ascii_text s = true) ->
  r ∈ Store.selected (BlotterList.search_filters first last) tbl
  <-> r ∈ tbl
      /\ (exists s, r !! "first_name" = Some (VStr s) /\ Spec.ci_substring first s = true)
      /\ (exists s, r !! "last_name" = Some (VStr s) /\ Spec.ci_substring last s = true).
Proof.
  intros Hp1 Hn1 Hp2 Hn2 _ _ _ _. unfold Store.selected.
  rewrite list_elem_of_In, filter_In, <- list_elem_of_In.
  rewrite search_filters_app, selects_app, andb_true_iff.
  rewrite selects_first_name, selects_last_name by done.
  split.
  - intros (Hin & H1 & H2). split; [done|]. split.
    + destruct (r !! "first_name") as [[n|s|b]|]; try discriminate. by exists s.
    + destruct (r !! "last_name") as [[n|s|b]|]; try discriminate. by exists s.
  - intros (Hin & (s1 & -> & H1) & (s2 & -> & H2)). done.
Qed.

Lemma search_both_boxes_witness :
  to_obj Sample.john ∈ Store.selected (BlotterList.search_filters "jo" "smi")
                         (map to_obj Sample.entries).
Proof.
  apply (search_both_boxes "jo" "smi" (map to_obj Sample.entries) (to_obj Sample.john));
    try done.
  - intros s Hs.
    assert (Hf : to_obj Sample.john !! "first_name" = Some (VStr "John")) by compute_done.
    rewrite Hf in Hs. by injection Hs as <-.
  - intros s Hs.
    assert (Hl : to_obj Sample.john !! "last_name" = Some (VStr "Smith")) by compute_done.
    rewrite Hl in Hs. by injection Hs as <-.
  - split; [compute_done|]. split.
    + exists "John". split; compute_done.
    + exists "Smith". split; compute_done.
Defined.

(** X19. The search of the remote variant reads the two name
    columns only: two rows with the same [first_name] and the same
    [last_name] are selected alike, whatever the search boxes hold
    and whatever the other columns of the rows are. *)
Theorem server_search_reads_names_only first last (r1 r2 : obj) :
  r1 !! "first_name" = r2 !! "first_name" ->
  r1 !! "last_name" = r2 !! "last_name" ->
  Store.selects (BlotterList.search_filters first last) r1
  = Store.selects (BlotterList.search_filters first last) r2.
Proof.
  intros H1 H2. unfold BlotterList.search_filters.
  destruct (Js.truthy first), (Js.truthy last);
    cbn [app Store.selects forallb Store.matches]; by rewrite ?H1, ?H2.
Qed.

Lemma server_search_reads_names_only_witness :
  Store.selects (BlotterList.search_filters "wallet" "")
    (<["blotter_entry" := VStr "Lost wallet"]> (to_obj Sample.john))
  = Store.selects (BlotterList.search_filters "wallet" "") (to_obj Sample.john).
Proof.
  apply (server_search_reads_names_only "wallet" ""); compute_done.
Defined.

Lemma filter_sublist {A} (f : A -> bool) (l : list A) : sublist (List.filter f l) l.
Proof.
  induction l as [|x l IH]; simpl; [constructor|].
  destruct (f x); by constructor.
Qed.

Lemma filteredEntries_eq s :
  filteredEntries (filterEntries s)
  = List.filter (fun e => (negb (Js.truthy (searchText s))
                           || search_hit (Js.toLowerCase (searchText s)) e)
                          && (String.eqb (caseTypeFilter s) "all"
                              || String.eqb (case_type e) (caseTypeFilter s)))
      (entries s).
Proof.
  unfold filterEntries, setFilteredEntries. cbn [filteredEntries].
  destruct (Js.truthy (searchText s)), (String.eqb (caseTypeFilter s) "all");
    cbn [negb orb andb].
  - apply filter_ext. intros e. by rewrite andb_true_r.
  - induction (entries s) as [|e l IH]; simpl; [done|].
    destruct (search_hit _ e); simpl; [|exact IH].
    destruct (String.eqb (case_type e) (caseTypeFilter s)); by rewrite IH.
  - induction (entries s) as [|e l IH]; simpl; [done|]. by rewrite <- IH.
  - reflexivity.
Qed.

(** X20. The two filters of the in-memory list work together: the
    list on show is the list of the loaded entries, in their order
    and each as often as it is loaded, without those that the
    search text or the chosen case type rules out. An entry passes
    the search when the text occurs, letter case apart, in its
    [first_name], [last_name], [case_type] or [blotter_entry],
    which the empty text does in every entry; it passes the case
    type when [all] is chosen or its case type is the chosen
    one. *)
Theorem local_filters_combine s :
  filteredEntries (filterEntries s)
  = List.filter (MoreSpec.shown (searchText s) (caseTypeFilter s)) (entries s).
Proof.
  rewrite filteredEntries_eq. apply filter_ext. intros e.
  unfold MoreSpec.shown, search_hit, Spec.ci_substring. f_equal.
  destruct (searchText s) as [|c t]; [|reflexivity].
  cbn [Js.truthy negb orb Js.toLowerCase]. by rewrite includes_empty.
Qed.

Lemma foldl_set_add l : forall acc,
  NoDup acc ->
  NoDup (foldl set_add acc l)
  /\ forall x, x ∈ foldl set_add acc l <-> x ∈ acc \/ x ∈ l.
Proof.
  induction l as [|y l IH]; intros acc Hnd; simpl.
  - split; [done|]. intros x. rewrite elem_of_nil. tauto.
  - assert (Hnd' : NoDup (set_add acc y)).
    { unfold set_add. case_bool_decide; [done|].
      apply NoDup_app. split; [done|]. split; [|apply NoDup_singleton].
      intros x Hx Hy. apply list_elem_of_singleton in Hy as ->. done. }
    destruct (IH _ Hnd') as [H1 H2]. split; [done|].
    intros x. rewrite H2, elem_of_cons. unfold set_add. case_bool_decide.
    + split; [tauto|]. intros [?|[->|?]]; tauto.
    + rewrite elem_of_app, list_elem_of_singleton. tauto.
Qed.

Lemma getCaseTypes_entries s :
  NoDup (getCaseTypes s)
  /\ forall t, t ∈ getCaseTypes s -> exists e, e ∈ entries s /\ case_type e = t.
Proof.
  destruct (foldl_set_add (map case_type (entries s)) [] (NoDup_nil_2)) as [H1 H2].
  split; [exact H1|]. intros t. unfold getCaseTypes. rewrite H2, elem_of_nil.
  rewrite list_elem_of_fmap. intros [[]|(e & -> & He)]. by exists e.
Qed.

(** X21. The case types offered by the in-memory list are the case
    types of the loaded entries, each one once. *)
Theorem getCaseTypes_spec s :
  NoDup (getCaseTypes s)
  /\ forall t, t ∈ getCaseTypes s <-> exists e, e ∈ entries s /\ case_type e = t.
Proof.
  destruct (foldl_set_add (map case_type (entries s)) [] (NoDup_nil_2)) as [H1 H2].
  split; [exact H1|]. intros t. unfold getCaseTypes. rewrite H2, elem_of_nil.
  rewrite list_elem_of_fmap. split.
  - intros [[]|(e & -> & He)]. by exists e.
  - intros (e & He & <-). right. by exists e.
Qed.

(** X22. Choosing an offered case type other than [all], with an
    empty search box, shows at least one entry and only entries of
    that case type. *)
Theorem offered_case_type_selects s t :
  t ∈ getCaseTypes s -> t <> "all" ->
  filteredEntries (on_caseType t (resetFilters s)) <> []
  /\ forall e, e ∈ filteredEntries (on_caseType t (resetFilters s))
       <-> e ∈ entries s /\ case_type e = t.
Proof.
  intros Ht Hall.
  assert (Hmem : forall e, e ∈ filteredEntries (on_caseType t (resetFilters s))
                   <-> e ∈ entries s /\ case_type e = t).
  { intros e. unfold on_caseType. rewrite filteredEntries_eq.
    cbn [with_filters searchText caseTypeFilter entries resetFilters filterEntries
         setFilteredEntries Js.truthy negb orb andb].
    rewrite list_elem_of_In, filter_In, <- list_elem_of_In.
    rewrite (proj2 (String.eqb_neq t "all") Hall). cbn [orb]. by rewrite String.eqb_eq. }
  split; [|exact Hmem].
  destruct (proj2 (getCaseTypes_entries s) t Ht) as (e & He & Hc).
  intros Hnil. assert (Hin : e ∈ filteredEntries (on_caseType t (resetFilters s)))
    by (apply Hmem; done).
  rewrite Hnil in Hin. by apply elem_of_nil in Hin.
Qed.

Lemma offered_case_type_selects_witness :
  let s := {| entries := Sample.entries; filteredEntries := [];
              searchText := "jo"; caseTypeFilter := "all" |} in
  Sample.maria ∈ filteredEntries (on_caseType "Lost item" (resetFilters s)).
Proof.
  intros s.
  apply (proj2 (offered_case_type_selects s "Lost item" ltac:(compute_done)
                  ltac:(discriminate))).
  split; [compute_done|reflexivity].
Defined.

Lemma truthy_toLowerCase t : Js.truthy (Js.toLowerCase t) = Js.truthy t.
Proof. by destruct t. Qed.

(** X23. Both variants of the search ignore the letter case of the
    text typed: two texts that differ in letter case only give the
    same query in either box of the remote variant and the same
    list on show in the in-memory variant. *)
Theorem search_ignores_case_of_text t t' :
  Js.toLowerCase t = Js.toLowerCase t' ->
  (forall other p, BlotterList.query t other p = BlotterList.query t' other p
                   /\ BlotterList.query other t p = BlotterList.query other t' p)
  /\ (forall s, filteredEntries (on_searchText t s) = filteredEntries (on_searchText t' s)).
Proof.
  intros H.
  assert (Ht : Js.truthy t = Js.truthy t')
    by (rewrite <- (truthy_toLowerCase t), <- (truthy_toLowerCase t'); by rewrite H).
  split.
  - intros other p. unfold BlotterList.query, BlotterList.search_filters.
    by rewrite H, Ht.
  - intros s. unfold on_searchText. rewrite !filteredEntries_eq.
    cbn [with_filters searchText caseTypeFilter entries]. by rewrite H, Ht.
Qed.

Lemma search_ignores_case_of_text_witness :
  BlotterList.query "JOHN" "" 1 = BlotterList.query "john" "" 1.
Proof.
  apply (search_ignores_case_of_text "JOHN" "john"). reflexivity.
Defined.

End FiltersMore.
